(** * Stock pipeline: fetch, parse and upsert of daily price records

    A shallow embedding of [scripts/fetch_stock_data.py] (class
    [StockDataFetcher]) and the properties of its five operations:
    [get_demo_data], [fetch_stock_data], [parse_stock_data],
    [save_to_database] and [run_pipeline].

    Part I holds the definitions, in the order of the source file; Part II
    holds the lemmas and theorems. *)

From Stdlib Require Import ZArith QArith Qround Qabs Lia Lqa String Ascii List.
From Stdlib Require Import DecimalString DecimalZ.
From stdpp Require Import gmap strings list fin_maps sorting.

Local Open Scope Z_scope.
Local Set Warnings "-register-all,-clear-no-such-hyp".

(* ================================================================== *)
(** * Part I: definitions *)
(* ================================================================== *)

(** ** Calendar dates ([datetime.date]) and the format [%Y-%m-%d] *)

Module Calendar.

Record date := Date { year : Z; month : Z; day : Z }.

Definition is_leap (y : Z) : bool :=
  (y mod 4 =? 0) && (negb (y mod 100 =? 0) || (y mod 400 =? 0)).

Definition days_in_month (y m : Z) : Z :=
  if m =? 2 then (if is_leap y then 29 else 28)
  else if (m =? 4) || (m =? 6) || (m =? 9) || (m =? 11) then 30
  else 31.

(** The dates [datetime.date] can hold: years 1 to 9999. *)
Definition valid_date (d : date) : Prop :=
  1 <= year d <= 9999 /\ 1 <= month d <= 12 /\
  1 <= day d <= days_in_month (year d) (month d).

Definition valid_dateb (d : date) : bool :=
  (1 <=? year d) && (year d <=? 9999) && (1 <=? month d) && (month d <=? 12)
  && (1 <=? day d) && (day d <=? days_in_month (year d) (month d)).

(** Chronological order. *)
Definition date_lt (a b : date) : Prop :=
  year a < year b \/
  (year a = year b /\
   (month a < month b \/ (month a = month b /\ day a < day b))).

(** The same order as a three-way comparison. *)
Definition date_compare (a b : date) : comparison :=
  match year a ?= year b with
  | Eq => match month a ?= month b with
          | Eq => day a ?= day b
          | c => c
          end
  | c => c
  end.

(** The calendar day before [d]. *)
Definition prev_day (d : date) : date :=
  if 1 <? day d then Date (year d) (month d) (day d - 1)
  else if 1 <? month d
       then Date (year d) (month d - 1) (days_in_month (year d) (month d - 1))
       else Date (year d - 1) 12 31.

(** [d - timedelta(days=n)], on the date part of a [datetime]. *)
Fixpoint minus_days (d : date) (n : nat) : date :=
  match n with
  | O => d
  | S k => prev_day (minus_days d k)
  end.

(** The character of a decimal digit, and the digit of a character: the
    ASCII digits are the codes 48 to 57. *)
Definition digit_char (k : Z) : ascii := ascii_of_N (Z.to_N (48 + k)).

Definition digit_val (c : ascii) : option Z :=
  let code := Z.of_N (N_of_ascii c) in
  if (48 <=? code) && (code <=? 57) then Some (code - 48) else None.

(** The [w] low decimal digits of [n], most significant first, put in
    front of [tail]. *)
Fixpoint zero_padded (w : nat) (n : Z) (tail : string) : string :=
  match w with
  | O => tail
  | S w' => zero_padded w' (n / 10) (String (digit_char (n mod 10)) tail)
  end.

(** [d.strftime('%Y-%m-%d')]. The year is written with four digits; the C
    library underneath leaves years below 1000 unpadded on some
    platforms, and the statements about generated data take the clock in
    a later year. *)
Definition strftime_ymd (d : date) : string :=
  zero_padded 4 (year d)
    (String "-" (zero_padded 2 (month d)
       (String "-" (zero_padded 2 (day d) EmptyString)))).

(** The constructor [date(y, m, d)], which raises [ValueError] out of
    range. *)
Definition make_date (y m d : Z) : option date :=
  if valid_dateb (Date y m d) then Some (Date y m d) else None.

(** A string is the sequence of the UTF-8 bytes of a Python [str] (a lone
    surrogate as its three bytes): the order of the bytes is the order of
    the code points, so comparing, sorting and searching are those of the
    bytes. Where the code looks at a character, the code point is read off
    the bytes. *)
Definition byte_of (c : ascii) : Z := Z.of_N (N_of_ascii c).

(** One continuation byte, added to the bits read so far. *)
Definition continuation (acc : Z) (s : string) : option (Z * string) :=
  match s with
  | String c rest =>
      let b := byte_of c in
      if (128 <=? b) && (b <? 192) then Some (64 * acc + (b - 128), rest)
      else None
  | EmptyString => None
  end.

(** The code point at the head of a string and what follows it; [None]
    at the end of the string and on bytes that encode no code point. *)
Definition code_point (s : string) : option (Z * string) :=
  match s with
  | EmptyString => None
  | String c rest =>
      let b := byte_of c in
      if b <? 128 then Some (b, rest)
      else if b <? 194 then None
      else if b <? 224 then continuation (b - 192) rest
      else if b <? 240 then
        match continuation (b - 224) rest with
        | Some (x, rest1) =>
            match continuation x rest1 with
            | Some (cp, rest2) =>
                if 2048 <=? cp then Some (cp, rest2) else None
            | None => None
            end
        | None => None
        end
      else if b <? 245 then
        match continuation (b - 240) rest with
        | Some (x, rest1) =>
            match continuation x rest1 with
            | Some (y, rest2) =>
                match continuation y rest2 with
                | Some (cp, rest3) =>
                    if (65536 <=? cp) && (cp <=? 1114111)
                    then Some (cp, rest3) else None
                | None => None
                end
            | None => None
            end
        | None => None
        end
      else None
  end.

(** The decimal digits of Unicode 14.0, the character database of
    Python 3.11 (category Nd): each script has its ten digits in a row,
    and this is the code point of the digit zero of each. *)
Definition decimal_zeros : list Z :=
  [48; 1632; 1776; 1984; 2406; 2534; 2662; 2790; 2918; 3046; 3174; 3302;
   3430; 3558; 3664; 3792; 3872; 4160; 4240; 6112; 6160; 6470; 6608; 6784;
   6800; 6992; 7088; 7232; 7248; 42528; 43216; 43264; 43472; 43504; 43600;
   44016; 65296; 66720; 68912; 69734; 69872; 69942; 70096; 70384; 70736;
   70864; 71248; 71360; 71472; 71904; 72016; 72784; 73040; 73120; 92768;
   92864; 93008; 120782; 120792; 120802; 120812; 120822; 123200; 123632;
   125264; 130032].

(** The value [int] gives a decimal digit, of whatever script. *)
Definition decimal_value (cp : Z) : option Z :=
  match List.find (fun z => (z <=? cp) && (cp <? z + 10)) decimal_zeros with
  | Some z => Some (cp - z)
  | None => None
  end.

(** [\d] of a regular expression on [str]: one decimal digit of any
    script. The result is the value of the digit and the rest of the
    string. *)
Definition match_digit (s : string) : option (Z * string) :=
  match code_point s with
  | Some (cp, rest) =>
      match decimal_value cp with
      | Some k => Some (k, rest)
      | None => None
      end
  | None => None
  end.

(** The directive [%Y] is [\d\d\d\d]. *)
Definition match_year (s : string) : option (Z * string) :=
  match match_digit s with
  | Some (a, s1) =>
      match match_digit s1 with
      | Some (b, s2) =>
          match match_digit s2 with
          | Some (c, s3) =>
              match match_digit s3 with
              | Some (d, s4) => Some (1000 * a + 100 * b + 10 * c + d, s4)
              | None => None
              end
          | None => None
          end
      | None => None
      end
  | None => None
  end.

(** The directive [%m] is the regular expression [1[0-2]|0[1-9]|[1-9]],
    of ASCII digits only; in the format it is followed by a literal dash,
    so the one-digit alternative is only taken in front of something that
    is not an ASCII digit. *)
Definition match_month (s : string) : option (Z * string) :=
  match s with
  | String a (String b rest) =>
      match digit_val a, digit_val b with
      | Some 1, Some j => if j <=? 2 then Some (10 + j, rest) else None
      | Some 0, Some j => if 1 <=? j then Some (j, rest) else None
      | Some i, None => if 1 <=? i then Some (i, String b rest) else None
      | _, _ => None
      end
  | _ => None
  end.

(** The directive [%d] is [3[0-1]|[1-2]\d|0[1-9]|[1-9]| [1-9]]: the first
    alternative that matches is taken, and what it leaves over is
    returned. The second digit of the alternative [[1-2]\d] is a digit of
    any script, all other digits are ASCII. *)
Definition match_day (s : string) : option (Z * string) :=
  match s with
  | String a rest =>
      match digit_val a, rest with
      | Some 3, String b rest' =>
          match digit_val b with
          | Some j => if j <=? 1 then Some (30 + j, rest') else Some (3, rest)
          | None => Some (3, rest)
          end
      | Some 0, String b rest' =>
          match digit_val b with
          | Some j => if 1 <=? j then Some (j, rest') else None
          | None => None
          end
      | Some 0, EmptyString => None
      | Some i, String _ _ =>
          if i <=? 2 then
            match match_digit rest with
            | Some (j, rest') => Some (10 * i + j, rest')
            | None => Some (i, rest)
            end
          else Some (i, rest)
      | Some i, EmptyString => Some (i, EmptyString)
      | None, String b rest' =>
          if Ascii.eqb a " " then
            match digit_val b with
            | Some j => if 1 <=? j then Some (j, rest') else None
            | None => None
            end
          else None
      | None, EmptyString => None
      end
  | EmptyString => None
  end.

(** [datetime.strptime(s, '%Y-%m-%d').date()]; [None] stands for the
    [ValueError] it raises: when the string does not match the format,
    when something is left over after the day, and when the numbers are
    no date. *)
Definition strptime_ymd (s : string) : option date :=
  match match_year s with
  | Some (y, String "-" s1) =>
      match match_month s1 with
      | Some (m, String "-" s2) =>
          match match_day s2 with
          | Some (d, EmptyString) => make_date y m d
          | _ => None
          end
      | _ => None
      end
  | _ => None
  end.

End Calendar.

Export Calendar.

Arguments strptime_ymd : simpl never.
Arguments strftime_ymd : simpl never.

#[global] Instance date_eq_dec : EqDecision date.
Proof. solve_decision. Defined.

#[global] Instance date_countable : Countable date.
Proof.
  apply (inj_countable' (fun d => (year d, month d, day d))
                        (fun t => Date t.1.1 t.1.2 t.2)).
  by intros [].
Defined.

(** ** Untyped response values

    What [response.json()] returns and what [get_demo_data] builds:
    nested dictionaries with string keys. *)

Inductive json : Type :=
| JNull
| JBool (b : bool)
| JInt (n : Z)
| JReal (q : Q)
| JStr (s : string)
| JList (l : list json)
| JDict (m : gmap string json).

(** [data[key]] for a string key: only a dictionary that has the key
    answers; a missing key is a [KeyError] and every other value a
    [TypeError], both [None] here. *)
Definition py_getitem (data : json) (key : string) : option json :=
  match data with
  | JDict m => m !! key
  | _ => None
  end.

(** [data.keys()], an [AttributeError] on anything but a dictionary. *)
Definition py_keys (data : json) : option (list string) :=
  match data with
  | JDict m => Some (elements (dom m))
  | _ => None
  end.

Fixpoint is_prefix (p s : string) : bool :=
  match p, s with
  | EmptyString, _ => true
  | String a p', String b s' => Ascii.eqb a b && is_prefix p' s'
  | String _ _, EmptyString => false
  end.

Fixpoint is_substring (p s : string) : bool :=
  is_prefix p s ||
  match s with
  | EmptyString => false
  | String _ s' => is_substring p s'
  end.

Definition is_jstr (key : string) (v : json) : bool :=
  match v with
  | JStr s => String.eqb s key
  | _ => false
  end.

(** [key in data] for a string key: key membership in a dictionary,
    element membership in a list, substring test on a string and a
    [TypeError] ([None]) on the rest. *)
Definition py_in (key : string) (data : json) : option bool :=
  match data with
  | JDict m => Some (bool_decide (key ∈ dom m))
  | JList l => Some (existsb (is_jstr key) l)
  | JStr s => Some (is_substring key s)
  | _ => None
  end.

(** Truth value of a response: [None], an empty container, zero and
    [False] are false. *)
Definition py_truthy (data : json) : bool :=
  match data with
  | JNull => false
  | JBool b => b
  | JInt n => negb (n =? 0)
  | JReal q => negb (Qeq_bool q 0)
  | JStr s => negb (String.eqb s "")
  | JList l => negb (bool_decide (l = []))
  | JDict m => negb (bool_decide (m = ∅))
  end.

(** [str(n)] for an integer. *)
Definition py_str (n : Z) : string := NilZero.string_of_int (Z.to_int n).

(** ** Floating-point numbers

    A finite [float] is the rational it denotes. An arithmetic operation
    is the exact operation followed by rounding to a representable
    number, [fl]; a decimal literal denotes the rounding of its
    decimal. *)

Class Rounding := fl : Q -> Q.

(** What the theorems on generated prices use of IEEE 754 rounding: it is
    monotone, leaves representable numbers alone, and the eighths between
    -1 and 1 are representable. *)
Class RoundingLaws `{Rounding} : Prop := {
  fl_mono : forall x y : Q, (x <= y)%Q -> (fl x <= fl y)%Q;
  fl_idem : forall x : Q, (fl (fl x) == fl x)%Q;
  fl_eighths : forall k : Z, -8 <= k <= 8 -> (fl (k # 8) == k # 8)%Q
}.

Section FloatOps.
Context `{Rounding}.

Definition fadd (a b : Q) : Q := fl (a + b).
Definition fsub (a b : Q) : Q := fl (a - b).
Definition fmul (a b : Q) : Q := fl (a * b).

End FloatOps.

(** [max(a, b)] and [min(a, b)]: the second argument only when it is
    strictly larger (smaller). *)
Definition py_max (a b : Q) : Q := if Qlt_le_dec a b then b else a.
Definition py_min (a b : Q) : Q := if Qlt_le_dec b a then b else a.

(** Rounding to the nearest integer, ties to the even one. *)
Definition round_half_even (q : Q) : Z :=
  let f := Qfloor q in
  match (q - inject_Z f ?= 1 # 2)%Q with
  | Lt => f
  | Gt => f + 1
  | Eq => if Z.even f then f else f + 1
  end.

(** The number of hundredths that [f"{x:.2f}"] prints for the magnitude
    of [x]. *)
Definition hundredths (x : Q) : Z := round_half_even (Qabs x * 100).

(** [f"{x:.2f}"]. *)
Definition format_2f (x : Q) : string :=
  let c := hundredths x in
  ((if Qlt_le_dec x 0 then "-" else "") ++
   py_str (c / 100) ++ String "." (zero_padded 2 (c mod 100) ""))%string.

(** A reader for the decimals that [format_2f] writes: an optional sign,
    an integer part, a point and two digits. It gives the value in
    hundredths. *)
Fixpoint split_point (s : string) : option (string * string) :=
  match s with
  | EmptyString => None
  | String c s' =>
      if Ascii.eqb c "." then Some (EmptyString, s')
      else match split_point s' with
           | Some (a, b) => Some (String c a, b)
           | None => None
           end
  end.

Definition read_unsigned_2f (s : string) : option Z :=
  match split_point s with
  | Some (ip, String a (String b EmptyString)) =>
      match NilZero.uint_of_string ip, digit_val a, digit_val b with
      | Some u, Some x, Some y => Some (100 * Z.of_uint u + 10 * x + y)
      | _, _, _ => None
      end
  | _ => None
  end.

Definition read_2f (s : string) : option Z :=
  match s with
  | String "-" s' => Z.opp <$> read_unsigned_2f s'
  | _ => read_unsigned_2f s
  end.

(** The number of hundredths, and the integer, that a string field of a
    (dictionary) value shows. *)
Definition printed_hundredths (e : json) (field : string) : option Z :=
  match py_getitem e field with
  | Some (JStr s) => read_2f s
  | _ => None
  end.

Definition printed_integer (e : json) (field : string) : option Z :=
  match py_getitem e field with
  | Some (JStr s) => Z.of_int <$> NilZero.int_of_string s
  | _ => None
  end.

(** ** [get_demo_data] *)

(** The random numbers one day of demo data consumes, in the order they
    are drawn. *)
Record day_draws := DayDraws {
  u_daily_change : Q;   (* random.uniform(-0.05, 0.05) *)
  u_open : Q;           (* random.uniform(-0.02, 0.02) *)
  u_high : Q;           (* random.uniform(0, 0.03) *)
  u_low : Q;            (* random.uniform(0, 0.03) *)
  n_volume : Z          (* random.randint(1000000, 10000000) *)
}.

(** What one call of [get_demo_data] reads from outside: the local date
    at its [k]-th reading of the clock ([datetime.now()] is read once in
    each of the seven rounds, and once more for the metadata), and the
    draws of round [i]. *)
Record demo_env := DemoEnv {
  now : nat -> date;
  draws : nat -> day_draws
}.

Record prices := Prices {
  p_open : Q; p_high : Q; p_low : Q; p_close : Q
}.

Section Generator.
Context `{Rounding}.

(** The ranges [random.uniform] and [random.randint] promise. *)
Definition draws_in_range (dr : day_draws) : Prop :=
  (- fl (5 # 100) <= u_daily_change dr <= fl (5 # 100))%Q /\
  (- fl (2 # 100) <= u_open dr <= fl (2 # 100))%Q /\
  (0 <= u_high dr <= fl (3 # 100))%Q /\
  (0 <= u_low dr <= fl (3 # 100))%Q /\
  1000000 <= n_volume dr <= 10000000.

Definition base_prices : gmap string Q :=
  {[ "AAPL" := fl 150; "GOOGL" := fl 2500; "MSFT" := fl 300 ]}.

Definition base_price (symbol : string) : Q :=
  default (fl 100) (base_prices !! symbol).

Definition demo_prices (base : Q) (dr : day_draws) : prices :=
  let daily_change := u_daily_change dr in
  let open_price := fmul base (fadd 1 (u_open dr)) in
  let close_price := fmul open_price (fadd 1 daily_change) in
  let high_price := fmul (py_max open_price close_price) (fadd 1 (u_high dr)) in
  let low_price := fmul (py_min open_price close_price) (fsub 1 (u_low dr)) in
  Prices open_price high_price low_price close_price.

Definition demo_entry (base : Q) (dr : day_draws) : json :=
  let p := demo_prices base dr in
  JDict {[ "1. open" := JStr (format_2f (p_open p));
           "2. high" := JStr (format_2f (p_high p));
           "3. low" := JStr (format_2f (p_low p));
           "4. close" := JStr (format_2f (p_close p));
           "5. volume" := JStr (py_str (n_volume dr)) ]}.

Definition demo_date (env : demo_env) (i : nat) : string :=
  strftime_ymd (minus_days (now env i) i).

(** The loop [for i in range(7)], assigning [time_series[date]]. *)
Definition demo_time_series (env : demo_env) (base : Q) : gmap string json :=
  foldl (fun ts i => <[ demo_date env i := demo_entry base (draws env i) ]> ts)
        ∅ (seq 0 7).

Definition get_demo_data (env : demo_env) (symbol : string) : json :=
  let base := base_price symbol in
  JDict {[ "Time Series (Daily)" := JDict (demo_time_series env base);
           "Meta Data" := JDict
             {[ "1. Information" :=
                  JStr ("Demo Daily Prices and Volumes for " ++ symbol);
                "2. Symbol" := JStr symbol;
                "3. Last Refreshed" := JStr (strftime_ymd (now env 7));
                "4. Output Size" := JStr "Compact";
                "5. Time Zone" := JStr "US/Eastern" ]} ]}.

End Generator.



(** An instance of the rounding for the examples: rounding down to a
    multiple of 2^-20. *)
Definition fl_grid : Rounding :=
  fun x => (Qfloor (x * inject_Z (2 ^ 20)) # 2 ^ 20)%Q.

(** ** [fetch_stock_data] *)

(** What [requests.get], [raise_for_status] and [response.json()] come
    to. *)
Inductive http_outcome :=
| RequestException            (* network error, timeout, HTTP error status *)
| OtherException              (* any other [Exception] *)
| JsonBody (data : json).

Section Fetch.
Context `{Rounding}.

(** The body of the [try]: [None] when an operation on [data] raises,
    otherwise what the function returns there ([Some None] for
    [return None]). *)
Definition classify (data : json) (env : demo_env) (symbol : string)
  : option (option json) :=
  has_error ← py_in "Error Message" data;
  if has_error : bool then _ ← py_getitem data "Error Message"; Some None
  else
  has_note ← py_in "Note" data;
  if has_note : bool then _ ← py_getitem data "Note"; Some None
  else
  has_info ← py_in "Information" data;
  if has_info : bool then
    _ ← py_getitem data "Information"; Some (Some (get_demo_data env symbol))
  else
  has_series ← py_in "Time Series (Daily)" data;
  if negb has_series then Some (Some (get_demo_data env symbol))
  else Some (Some data).

Definition fetch_stock_data (resp : http_outcome) (env : demo_env)
    (symbol : string) : option json :=
  match resp with
  | RequestException => Some (get_demo_data env symbol)
  | OtherException => Some (get_demo_data env symbol)
  | JsonBody data =>
      match classify data env symbol with
      | Some r => r
      | None => Some (get_demo_data env symbol)   (* except Exception *)
      end
  end.

End Fetch.

(** ** [parse_stock_data] *)

(** The conversions [float(x)] and [int(x)] of a response value; [None]
    stands for the [ValueError] or [TypeError] they raise. The type of
    floats is left open here: a parsed price may be any float, not only a
    finite one. *)
Class Conversions := {
  float : Type;
  py_float : json -> option float;
  py_int : json -> option Z
}.

(** An instance of the conversions for the examples: floats are
    rationals, and only plain decimals are read (two places for a float,
    an integer for an int). *)
Definition decimal_conversions : Conversions :=
  {| float := Q;
     py_float := fun v =>
       match v with
       | JStr s => (fun c : Z => (c # 100)%Q) <$> read_2f s
       | JInt n => Some (inject_Z n)
       | JReal q => Some q
       | _ => None
       end;
     py_int := fun v =>
       match v with
       | JStr s => Z.of_int <$> NilZero.int_of_string s
       | JInt n => Some n
       | _ => None
       end |}.

(** The dictionary [record] built for one day. *)
Record price_record `{Conversions} := PriceRecord {
  symbol : string;
  on_date : date;
  open_price : float;
  high_price : float;
  low_price : float;
  close_price : float;
  volume : Z
}.
Arguments PriceRecord {_} _ _ _ _ _ _ _.

(** The order of [sorted(..., reverse=True)] on strings. *)
Definition str_ge (a b : string) : Prop := String.le b a.

#[global] Instance str_ge_dec : RelDecision str_ge.
Proof. intros a b. unfold str_ge. apply _. Defined.

Definition sorted_desc (l : list string) : list string := merge_sort str_ge l.

Section Parser.
Context `{Conversions}.

(** One round of the loop [for date_str in sorted_dates]. *)
Definition parse_entry (time_series : json) (sym date_str : string)
  : option price_record :=
  daily_data ← py_getitem time_series date_str;
  d ← strptime_ymd date_str;
  o ← py_getitem daily_data "1. open" ≫= py_float;
  h ← py_getitem daily_data "2. high" ≫= py_float;
  l ← py_getitem daily_data "3. low" ≫= py_float;
  c ← py_getitem daily_data "4. close" ≫= py_float;
  v ← py_getitem daily_data "5. volume" ≫= py_int;
  Some (PriceRecord sym d o h l c v).

(** The body of the [try]; [None] when anything in it raises. *)
Definition parse_body (data : json) (sym : string)
  : option (list price_record) :=
  time_series ← py_getitem data "Time Series (Daily)";
  keys ← py_keys time_series;
  let sorted_dates := take 7 (sorted_desc keys) in
  mapM (parse_entry time_series sym) sorted_dates.

Definition parse_stock_data (data : json) (sym : string)
  : list price_record :=
  match parse_body data sym with
  | Some parsed_data => parsed_data
  | None => []                       (* except Exception: return [] *)
  end.

(** The shape of a successful response's time series: the keys are the
    strings of calendar dates and every value holds the five fields in a
    form the conversions accept. *)
Definition iso_date_key (k : string) : Prop :=
  exists d, valid_date d /\ k = strftime_ymd d.

Definition numeric_entry (v : json) : Prop :=
  is_Some (py_getitem v "1. open" ≫= py_float) /\
  is_Some (py_getitem v "2. high" ≫= py_float) /\
  is_Some (py_getitem v "3. low" ≫= py_float) /\
  is_Some (py_getitem v "4. close" ≫= py_float) /\
  is_Some (py_getitem v "5. volume" ≫= py_int).

Definition well_formed_series (ts : gmap string json) : Prop :=
  forall k v, ts !! k = Some v -> iso_date_key k /\ numeric_entry v.

End Parser.

(** ** The database and [save_to_database] *)

Inductive exn := UnboundLocalError | DatabaseError.

Inductive result (A : Type) :=
| Ok (a : A)
| Raised (e : exn).
Arguments Ok {A} a.
Arguments Raised {A} e.

(** One row of [stock_prices]; [created_at] is [None] for SQL NULL. *)
Record row `{Conversions} := Row {
  row_open : float;
  row_high : float;
  row_low : float;
  row_close : float;
  row_volume : Z;
  created_at : option Z
}.
Arguments Row {_} _ _ _ _ _ _.

(** The table definition is not part of the sources. What the statement
    needs of it: which records the column types and constraints accept,
    and the value [created_at] takes when an INSERT leaves it out, from
    the time of the transaction. *)
Class Schema `{Conversions} := {
  db_accepts : price_record -> bool;
  created_at_default : Z -> option Z
}.

(** An instance for the examples: every record is accepted and
    [created_at] defaults to the time of the transaction. *)
Definition open_schema : @Schema decimal_conversions :=
  {| db_accepts := fun _ => true; created_at_default := Some |}.

(** Which database operations of one call fail. *)
Record db_faults := DbFaults {
  connect_fails : bool;
  cursor_fails : bool;
  execute_fails_at : option nat;
  commit_fails : bool;
  rollback_fails : bool;
  cursor_close_fails : bool;
  connection_close_fails : bool
}.

Definition no_faults : db_faults :=
  DbFaults false false None false false false false.

Inductive event :=
| EFetch (sym : string)
| EParse (sym : string)
| EStore (sym : string)
| EConnect
| ECursor
| EExecute (sym : string) (d : date)
| ECommit
| ERollback
| ECursorClose
| EConnectionClose
| ESleep (seconds : Z).

(** The table is a map on the unique key (symbol, date). [txn] is the
    table as the open transaction sees it; [cursor_bound] says whether
    the local variable [cursor] of the running call has been assigned. *)
Record state `{Conversions} := State {
  table : gmap (string * date) row;
  txn : gmap (string * date) row;
  connections : nat;
  cursors : nat;
  cursor_bound : bool;
  trace : list event
}.
Arguments State {_} _ _ _ _ _ _.

(** The events of the database, as opposed to those of the Runner. *)
Definition db_event (e : event) : Prop :=
  match e with
  | EFetch _ | EParse _ | EStore _ | ESleep _ => False
  | _ => True
  end.

Section Store.
Context `{Schema}.

Definition M (A : Type) : Type := state -> result A * state.

Definition ret {A} (a : A) : M A := fun s => (Ok a, s).
Definition raise {A} (e : exn) : M A := fun s => (Raised e, s).
Definition bind {A B} (m : M A) (k : A -> M B) : M B :=
  fun s => match m s with
           | (Ok a, s') => k a s'
           | (Raised e, s') => (Raised e, s')
           end.

(** [try: body except Exception: handler]. *)
Definition try_except {A} (body : M A) (handler : exn -> M A) : M A :=
  fun s => match body s with
           | (Ok a, s') => (Ok a, s')
           | (Raised e, s') => handler e s'
           end.

(** [try: body finally: cleanup]: the cleanup runs on every way out of
    the body, and an exception of its own replaces the body's result. *)
Definition try_finally {A} (body : M A) (cleanup : M unit) : M A :=
  fun s => match body s with
           | (r, s') =>
               match cleanup s' with
               | (Ok _, s'') => (r, s'')
               | (Raised e, s'') => (Raised e, s'')
               end
           end.

Definition emit (e : event) (s : state) : state :=
  State (table s) (txn s) (connections s) (cursors s) (cursor_bound s)
        (trace s ++ [e]).

Definition key_of (r : price_record) : string * date := (symbol r, on_date r).

Definition row_of (r : price_record) (created : option Z) : row :=
  Row (open_price r) (high_price r) (low_price r) (close_price r)
      (volume r) created.

(** INSERT ... ON CONFLICT (symbol, date) DO UPDATE SET ..., at
    transaction time [now]. *)
Definition upsert (now : Z) (r : price_record)
    (t : gmap (string * date) row) : gmap (string * date) row :=
  let k := key_of r in
  match t !! k with
  | None => <[ k := row_of r (created_at_default now) ]> t
  | Some _ => <[ k := row_of r (Some now) ]> t
  end.

(** The batch applied to a table, one statement after the other. *)
Definition apply_batch (now : Z) (rs : list price_record)
    (t : gmap (string * date) row) : gmap (string * date) row :=
  foldl (fun t r => upsert now r t) t rs.

(** The record of a batch that is applied last under the key [k]. *)
Definition last_for_key (k : string * date) (rs : list price_record)
  : option price_record :=
  last (filter (fun r => key_of r = k) rs).

Definition db_connect (f : db_faults) : M unit :=
  fun s =>
    if connect_fails f then (Raised DatabaseError, s)
    else (Ok tt, State (table s) (table s) (S (connections s)) (cursors s)
                       (cursor_bound s) (trace s ++ [EConnect])).

(** [connect_to_database]: the connection, or [None] ([false]). *)
Definition connect_to_database (f : db_faults) : M bool :=
  try_except (bind (db_connect f) (fun _ => ret true))
             (fun _ => ret false).

Definition open_cursor (f : db_faults) : M unit :=
  fun s =>
    if cursor_fails f then (Raised DatabaseError, s)
    else (Ok tt, State (table s) (txn s) (connections s) (S (cursors s))
                       true (trace s ++ [ECursor])).

Definition execute (f : db_faults) (now : Z) (i : nat) (r : price_record)
  : M unit :=
  fun s =>
    if bool_decide (execute_fails_at f = Some i) || negb (db_accepts r)
    then (Raised DatabaseError, s)
    else (Ok tt, State (table s) (upsert now r (txn s)) (connections s)
                       (cursors s) (cursor_bound s)
                       (trace s ++ [EExecute (symbol r) (on_date r)])).

Fixpoint executemany (f : db_faults) (now : Z) (i : nat)
    (records : list price_record) : M unit :=
  match records with
  | [] => ret tt
  | r :: rest => bind (execute f now i r)
                      (fun _ => executemany f now (S i) rest)
  end.

Definition commit (f : db_faults) : M unit :=
  fun s =>
    if commit_fails f then (Raised DatabaseError, s)
    else (Ok tt, State (txn s) (txn s) (connections s) (cursors s)
                       (cursor_bound s) (trace s ++ [ECommit])).

Definition rollback (f : db_faults) : M unit :=
  fun s =>
    if rollback_fails f then (Raised DatabaseError, s)
    else (Ok tt, State (table s) (table s) (connections s) (cursors s)
                       (cursor_bound s) (trace s ++ [ERollback])).

(** [cursor.close()]: reading the variable raises when it was never
    assigned. *)
Definition cursor_close (f : db_faults) : M unit :=
  fun s =>
    if negb (cursor_bound s) then (Raised UnboundLocalError, s)
    else if cursor_close_fails f then (Raised DatabaseError, s)
    else (Ok tt, State (table s) (txn s) (connections s) (pred (cursors s))
                       (cursor_bound s) (trace s ++ [ECursorClose])).

Definition connection_close (f : db_faults) : M unit :=
  fun s =>
    if connection_close_fails f then (Raised DatabaseError, s)
    else (Ok tt, State (table s) (table s) (pred (connections s)) (cursors s)
                       (cursor_bound s) (trace s ++ [EConnectionClose])).

(** A computation that adds to the trace only events that satisfy [P]. *)
Definition only_emits (P : event -> Prop) {A} (m : M A) : Prop :=
  forall s r s', m s = (r, s') ->
    exists evs, trace s' = trace s ++ evs /\ Forall P evs.

(** A computation that opens and closes nothing and leaves the variable
    [cursor] as it is. *)
Definition keeps_resources {A} (m : M A) : Prop :=
  forall s r s', m s = (r, s') ->
    connections s' = connections s /\ cursors s' = cursors s /\
    cursor_bound s' = cursor_bound s.

(** A call starts with its local variable [cursor] unassigned. *)
Definition enter_call (s : state) : state :=
  State (table s) (txn s) (connections s) (cursors s) false (trace s).

Definition save_to_database (f : db_faults) (now : Z)
    (records : list price_record) : M bool :=
  fun s =>
  match records with
  | [] => (Ok false, s)                   (* if not records: return False *)
  | _ :: _ =>
    bind (connect_to_database f) (fun connection =>
      if negb connection then ret false
      else
        try_finally
          (try_except
             (bind (open_cursor f) (fun _ =>
              bind (executemany f now 0 records) (fun _ =>
              bind (commit f) (fun _ =>
              ret true))))
             (fun _ => bind (rollback f) (fun _ => ret false)))
          (bind (cursor_close f) (fun _ => connection_close f)))
      (enter_call s)
  end.

End Store.

(** ** [run_pipeline] *)

(** What the run meets outside, by round of the loop over the symbols:
    the outcome of the HTTP call, the clock and random numbers a demo
    response would use, the faults of the database call and the time of
    its transaction. Each round makes at most one of each. *)
Record world := World {
  http : nat -> http_outcome;
  demo : nat -> demo_env;
  faults : nat -> db_faults;
  db_time : nat -> Z
}.

(** Where the processing of one symbol ends (the states of the Runner). *)
Inductive outcome :=
| fetch_failed
| parse_failed
| store_failed
| stored_ok.

#[global] Instance outcome_eq_dec : EqDecision outcome.
Proof. solve_decision. Defined.

Definition default_symbols : list string := ["AAPL"; "GOOGL"; "MSFT"].

Definition is_fetch (e : event) : bool :=
  match e with EFetch _ => true | _ => false end.

Definition is_sleep (e : event) : bool :=
  match e with ESleep _ => true | _ => false end.

(** The pause of [time.sleep(12)], after a symbol that was stored. *)
Definition pause_after (o : outcome) : list event :=
  match o with
  | stored_ok => [ESleep 12]
  | _ => []
  end.

(** The events of one symbol that ended in [o]: each stage it reached,
    once, the events of the database call if there was one, and the
    pause at the end if the symbol was stored. *)
Definition segment_of (so : string * outcome) (seg : list event) : Prop :=
  match so.2 with
  | fetch_failed => seg = [EFetch so.1]
  | parse_failed => seg = [EFetch so.1; EParse so.1]
  | store_failed =>
      exists db, Forall db_event db /\
                 seg = [EFetch so.1; EParse so.1; EStore so.1] ++ db
  | stored_ok =>
      exists db, Forall db_event db /\
                 seg = [EFetch so.1; EParse so.1; EStore so.1] ++ db ++
                       pause_after stored_ok
  end.

Definition succeeded (o : outcome) : bool := bool_decide (o = stored_ok).

Section Runner.
Context `{Rounding} `{Schema}.

(** [if not raw_data] on the [Optional[Dict]] that the fetch returns. *)
Definition no_data (raw_data : option json) : bool :=
  match raw_data with
  | None => true
  | Some data => negb (py_truthy data)
  end.

(** The body of the loop for the symbol of round [i]: the exit it takes
    and the state it leaves. An exception out of [save_to_database] is
    caught by the [except Exception] of the loop. *)
Definition process_symbol (w : world) (i : nat) (sym : string) (s : state)
  : outcome * state :=
  let s1 := emit (EFetch sym) s in
  let raw_data := fetch_stock_data (http w i) (demo w i) sym in
  if no_data raw_data then (fetch_failed, s1)
  else
    let s2 := emit (EParse sym) s1 in
    let parsed_records := parse_stock_data (default JNull raw_data) sym in
    match parsed_records with
    | [] => (parse_failed, s2)
    | _ :: _ =>
        match save_to_database (faults w i) (db_time w i) parsed_records
                               (emit (EStore sym) s2) with
        | (Ok true, s3) => (stored_ok, emit (ESleep 12) s3)
        | (Ok false, s3) => (store_failed, s3)
        | (Raised _, s3) => (store_failed, s3)
        end
    end.

(** Every exit but the last one runs [overall_success = False]. *)
Definition flag_after (o : outcome) (overall_success : bool) : bool :=
  match o with
  | stored_ok => overall_success
  | _ => false
  end.

Fixpoint run_loop (w : world) (i : nat) (symbols : list string)
    (overall_success : bool) (s : state) : bool * state :=
  match symbols with
  | [] => (overall_success, s)
  | sym :: rest =>
      let (o, s') := process_symbol w i sym s in
      run_loop w (S i) rest (flag_after o overall_success) s'
  end.

Definition run_pipeline (w : world) (symbols : option (list string))
    (s : state) : bool * state :=
  run_loop w 0 (default default_symbols symbols) true s.

(** The exits the symbols of a run take, in order. *)
Fixpoint outcomes (w : world) (i : nat) (symbols : list string) (s : state)
  : list outcome :=
  match symbols with
  | [] => []
  | sym :: rest =>
      let (o, s') := process_symbol w i sym s in
      o :: outcomes w (S i) rest s'
  end.

End Runner.

(** ** Further notions for the Store and the Runner *)

Section StoreNotions.
Context `{Schema}.

(** A computation that leaves the committed table as it is. *)
Definition keeps_table {A} (m : M A) : Prop :=
  forall s r s', m s = (r, s') -> table s' = table s.

(** The body of the [try] in [save_to_database], its handler and the
    [finally] block, as [save_to_database] composes them. *)
Definition save_body (f : db_faults) (now : Z) (records : list price_record)
  : M bool :=
  bind (open_cursor f) (fun _ =>
  bind (executemany f now 0 records) (fun _ =>
  bind (commit f) (fun _ =>
  ret true))).

Definition save_handler (f : db_faults) : exn -> M bool :=
  fun _ => bind (rollback f) (fun _ => ret false).

Definition save_cleanup (f : db_faults) : M unit :=
  bind (cursor_close f) (fun _ => connection_close f).

End StoreNotions.


(** ** The generator and the Parser together *)

(** The conversions accept what one call of the generator prints:
    [float()] reads the four prices of each of its seven entries and
    [int()] reads the volume. *)
Definition reads_generated `{Rounding} `{Conversions} (env : demo_env)
    (sym : string) : Prop :=
  forall i, (i < 7)%nat ->
    numeric_entry (demo_entry (base_price sym) (draws env i)).

(** What the record of round [i] of the generator is, once parsed. *)
Definition parsed_round `{Rounding} `{Conversions} (env : demo_env)
    (sym : string) (today : date) (i : nat) (r : price_record) : Prop :=
  let p := demo_prices (base_price sym) (draws env i) in
  symbol r = sym /\ on_date r = minus_days today i /\
  py_float (JStr (format_2f (p_open p))) = Some (open_price r) /\
  py_float (JStr (format_2f (p_high p))) = Some (high_price r) /\
  py_float (JStr (format_2f (p_low p))) = Some (low_price r) /\
  py_float (JStr (format_2f (p_close p))) = Some (close_price r) /\
  py_int (JStr (py_str (n_volume (draws env i)))) = Some (volume r).

(** Today and the six days before it, most recent first. *)
Definition last_seven_days (today : date) : list date :=
  minus_days today <$> seq 0 7.

(** The answers on which [fetch_stock_data] takes the demo data: a
    failed call, or an object without ['Error Message'] and ['Note'] that
    has an ['Information'] key or lacks the time series. *)
Definition falls_back (resp : http_outcome) : Prop :=
  resp = RequestException \/ resp = OtherException \/
  exists m, resp = JsonBody (JDict m) /\
            ("Error Message" ∉ dom m) /\ ("Note" ∉ dom m) /\
            ("Information" ∈ dom m \/ "Time Series (Daily)" ∉ dom m).

(** ** [__init__] and [main] *)

(** The connection parameters, read from the environment with the
    defaults of the source. *)
Record db_config := DbConfig {
  host : string; database : string; user : string;
  password : string; port : string
}.

Record fetcher := Fetcher {
  api_key : string;
  config : db_config;
  base_url : string
}.

(** [os.getenv(name, default)]. *)
Definition getenv (environ : gmap string string) (name dflt : string)
  : string :=
  default dflt (environ !! name).

(** [StockDataFetcher()]; [None] is the [ValueError] for a key that is
    missing or empty. *)
Definition init (environ : gmap string string) : option fetcher :=
  match environ !! "ALPHA_VANTAGE_API_KEY" with
  | None => None
  | Some key =>
      if String.eqb key "" then None
      else Some (Fetcher key
                   (DbConfig (getenv environ "POSTGRES_HOST" "postgres")
                             (getenv environ "POSTGRES_DB" "stock_data")
                             (getenv environ "POSTGRES_USER" "stockuser")
                             (getenv environ "POSTGRES_PASSWORD"
                                     "stockpass123")
                             (getenv environ "POSTGRES_PORT" "5432"))
                   "https://www.alphavantage.co/query")
  end.

(** [sys.argv[1:] if len(sys.argv) > 1 else ['AAPL', 'GOOGL', 'MSFT']]. *)
Definition symbols_of_argv (argv : list string) : list string :=
  if (1 <? length argv)%nat then drop 1 argv else default_symbols.

Section Main.
Context `{Rounding} `{Schema}.

(** [main()], to the exit code it passes to [sys.exit] and the state it
    leaves. The run is not interrupted from the keyboard here. *)
Definition main (environ : gmap string string) (argv : list string)
    (w : world) (s : state) : Z * state :=
  match init environ with
  | None => (1, s)                          (* except Exception: exit 1 *)
  | Some _ =>
      let symbols := symbols_of_argv argv in
      let (success, s') := run_pipeline w (Some symbols) s in
      (if success then 0 else 1, s')
  end.

End Main.


(** Two rows with the same values, whatever their [created_at]. *)
Definition same_values `{Conversions} (a b : row) : Prop :=
  row_open a = row_open b /\ row_high a = row_high b /\
  row_low a = row_low b /\ row_close a = row_close b /\
  row_volume a = row_volume b.


(** ** Data for the examples *)

Definition sample_day : date := Date 2024 1 2.

(** A clock that stays on one day and draws in the middle of their
    ranges. *)
Definition sample_env : demo_env :=
  DemoEnv (fun _ => Date 2024 1 3)
          (fun _ => DayDraws (1 # 100) (- (1 # 100)) (2 # 100) (1 # 100)
                             5000000).

(** A response that carries the rate-limit note. *)
Definition note_fields : gmap string json :=
  {[ "Note" := JStr "API call frequency is 5 calls per minute" ]}.

Definition note_response : json := JDict note_fields.

(** A time series of two days. The fields of the first convert, to
    values no market has seen: a negative open, a low above the high, a
    close of zero and a negative volume. *)
Definition odd_entry : json :=
  JDict {[ "1. open" := JStr "-5.00"; "2. high" := JStr "1.00";
           "3. low" := JStr "2.00"; "4. close" := JStr "0.00";
           "5. volume" := JStr "-3" ]}.

Definition plain_entry : json :=
  JDict {[ "1. open" := JStr "10.00"; "2. high" := JStr "12.00";
           "3. low" := JStr "9.50"; "4. close" := JStr "11.00";
           "5. volume" := JStr "1200" ]}.

Definition odd_series : gmap string json :=
  {[ "2024-01-02" := odd_entry; "2024-01-03" := plain_entry ]}.

Definition odd_response : json :=
  JDict {[ "Time Series (Daily)" := JDict odd_series ]}.

Definition sample_key : string * date := ("AAPL", sample_day).

Definition sample_record (price : Q) (vol : Z)
  : @price_record decimal_conversions :=
  @PriceRecord decimal_conversions "AAPL" sample_day
    price price price price vol.

Definition empty_state : @state decimal_conversions :=
  @State decimal_conversions ∅ ∅ 0 0 false [].

(** A table that already holds the sample key, created at time 100. *)
Definition stored_table : gmap (string * date) (@row decimal_conversions) :=
  {[ sample_key := @Row decimal_conversions 1%Q 1%Q 1%Q 1%Q 10 (Some 100) ]}.

Definition stored_state : @state decimal_conversions :=
  @State decimal_conversions stored_table stored_table 0 0 false [].

(** A database whose connection cannot give a cursor. *)
Definition cursor_fault : db_faults :=
  DbFaults false true None false false false false.

(** A clock on which midnight passes between the first and the second
    reading. *)
Definition rollover_env : demo_env :=
  DemoEnv (fun k => match k with O => Date 2024 1 3 | _ => Date 2024 1 4 end)
          (draws sample_env).

(** A time series with a field that is no number. *)
Definition broken_response : json :=
  JDict {[ "Time Series (Daily)" := JDict
    {[ "2024-01-02" := plain_entry;
       "2024-01-03" := JDict {[ "1. open" := JStr "n/a";
                                "2. high" := JStr "12.00";
                                "3. low" := JStr "9.50";
                                "4. close" := JStr "11.00";
                                "5. volume" := JStr "1200" ]} ]} ]}.

(** A run of three rounds: the first call times out, the second is
    answered with the rate-limit note, the third fails otherwise and its
    database gives no cursor. *)
Definition sample_world : world :=
  World (fun i => match i with
                  | 0%nat => RequestException
                  | 1%nat => JsonBody note_response
                  | _ => OtherException
                  end)
        (fun _ => sample_env)
        (fun i => match i with 2%nat => cursor_fault | _ => no_faults end)
        (fun i => Z.of_nat i).

(** A database whose commit fails. *)
Definition commit_fault : db_faults :=
  DbFaults false false None true false false false.

(** The demo series of the sample clock with a day of the year before
    added, whose entry is no dictionary. *)
Definition older_response : json :=
  JDict {[ "Time Series (Daily)" :=
             JDict (<["2023-01-01" := JNull]>
                      (@demo_time_series fl_grid sample_env
                         (@base_price fl_grid "AAPL"))) ]}.

(** An answer whose time series has no day. *)
Definition empty_series_fields : gmap string json :=
  {[ "Time Series (Daily)" := JDict ∅ ]}.

(** A run in which every call times out and the database works. *)
Definition steady_world : world :=
  World (fun _ => RequestException) (fun _ => sample_env)
        (fun _ => no_faults) (fun i => Z.of_nat i).

(** A run in which every call is answered with the empty time series. *)
Definition empty_series_world : world :=
  World (fun _ => JsonBody (JDict empty_series_fields)) (fun _ => sample_env)
        (fun _ => no_faults) (fun i => Z.of_nat i).

Definition sample_environ : gmap string string :=
  {[ "ALPHA_VANTAGE_API_KEY" := "demo" ]}.

Definition sample_argv : list string := ["fetch_stock_data.py"; "AAPL"].

(** A time series of two days; the open of the later one is no
    number. *)
Definition unread_entry : json :=
  JDict {[ "1. open" := JStr "n/a"; "2. high" := JStr "12.00";
           "3. low" := JStr "9.50"; "4. close" := JStr "11.00";
           "5. volume" := JStr "1200" ]}.

Definition unread_series : gmap string json :=
  {[ "2024-01-02" := plain_entry; "2024-01-03" := unread_entry ]}.

(** The string of the given bytes. *)
Definition of_bytes (l : list Z) : string :=
  foldr (fun b s => String (ascii_of_N (Z.to_N b)) s) EmptyString l.

(** The year 2024 in Arabic-Indic digits and the fullwidth digit two, in
    UTF-8. *)
Definition arabic_indic_2024 : string :=
  of_bytes [217; 162; 217; 160; 217; 162; 217; 164].

Definition fullwidth_2 : string := of_bytes [239; 188; 146].

(* ================================================================== *)
(** * Part II: lemmas and theorems *)
(* ================================================================== *)

(** ** Dates and their strings *)

Lemma digit_val_char (k : Z) : 0 <= k <= 9 -> digit_val (digit_char k) = Some k.
Proof.
  intros Hk.
  assert (k = 0 \/ k = 1 \/ k = 2 \/ k = 3 \/ k = 4 \/ k = 5 \/ k = 6 \/
          k = 7 \/ k = 8 \/ k = 9) as Hc by lia.
  repeat (destruct Hc as [-> | Hc]; [reflexivity |]). by subst.
Qed.

Lemma digit_char_compare (a b : Z) :
  0 <= a <= 9 -> 0 <= b <= 9 ->
  Ascii.compare (digit_char a) (digit_char b) = (a ?= b).
Proof.
  intros Ha Hb.
  assert (a = 0 \/ a = 1 \/ a = 2 \/ a = 3 \/ a = 4 \/ a = 5 \/ a = 6 \/
          a = 7 \/ a = 8 \/ a = 9) as Hc by lia.
  assert (b = 0 \/ b = 1 \/ b = 2 \/ b = 3 \/ b = 4 \/ b = 5 \/ b = 6 \/
          b = 7 \/ b = 8 \/ b = 9) as Hd by lia.
  repeat (destruct Hc as [-> | Hc]);
    repeat (destruct Hd as [-> | Hd]); subst; reflexivity.
Qed.

Lemma compare_zero_padded (w : nat) :
  forall (a b : Z) (s t : string),
    0 <= a < 10 ^ Z.of_nat w -> 0 <= b < 10 ^ Z.of_nat w ->
    String.compare (zero_padded w a s) (zero_padded w b t) =
    match a ?= b with
    | Eq => String.compare s t
    | c => c
    end.
Proof.
  induction w as [| w IH]; intros a b s t Ha Hb.
  - simpl in *. assert (a = 0) as -> by lia. assert (b = 0) as -> by lia.
    reflexivity.
  - rewrite Nat2Z.inj_succ, Z.pow_succ_r in Ha, Hb by lia.
    pose proof (Z.div_mod a 10 ltac:(lia)) as Ea.
    pose proof (Z.div_mod b 10 ltac:(lia)) as Eb.
    pose proof (Z.mod_pos_bound a 10 ltac:(lia)) as Ma.
    pose proof (Z.mod_pos_bound b 10 ltac:(lia)) as Mb.
    cbn [zero_padded]. rewrite IH by lia.
    cbn [String.compare]. rewrite digit_char_compare by lia.
    destruct (Z.compare_spec (a / 10) (b / 10)),
             (Z.compare_spec (a mod 10) (b mod 10)),
             (Z.compare_spec a b); try reflexivity; lia.
Qed.

Lemma le_of_compare (s t : string) :
  String.le s t <-> String.compare s t <> Gt.
Proof.
  unfold String.le, String.leb.
  destruct (String.compare s t); simpl; intuition congruence.
Qed.

Lemma days_in_month_bounds (y m : Z) : 28 <= days_in_month y m <= 31.
Proof.
  unfold days_in_month.
  repeat match goal with |- context [if ?c then _ else _] => destruct c end;
    lia.
Qed.

Lemma valid_date_bounds (d : date) :
  valid_date d ->
  0 <= year d < 10 ^ Z.of_nat 4 /\ 0 <= month d < 10 ^ Z.of_nat 2 /\
  0 <= day d < 10 ^ Z.of_nat 2.
Proof.
  intros (Hy & Hm & Hd). change (10 ^ Z.of_nat 4) with 10000.
  change (10 ^ Z.of_nat 2) with 100.
  pose proof (days_in_month_bounds (year d) (month d)). lia.
Qed.

Lemma strftime_compare (a b : date) :
  valid_date a -> valid_date b ->
  String.compare (strftime_ymd a) (strftime_ymd b) = date_compare a b.
Proof.
  intros Ha Hb.
  destruct (valid_date_bounds a Ha) as (Ya & Ma & Da).
  destruct (valid_date_bounds b Hb) as (Yb & Mb & Db).
  unfold strftime_ymd, date_compare.
  rewrite compare_zero_padded by assumption.
  destruct (year a ?= year b); try reflexivity.
  cbn [String.compare]. change (Ascii.compare "-" "-") with Eq. cbv iota.
  rewrite compare_zero_padded by assumption.
  destruct (month a ?= month b); try reflexivity.
  cbn [String.compare]. change (Ascii.compare "-" "-") with Eq. cbv iota.
  rewrite compare_zero_padded by assumption.
  destruct (day a ?= day b); reflexivity.
Qed.

Lemma date_compare_eq (a b : date) : date_compare a b = Eq -> a = b.
Proof.
  unfold date_compare. destruct a as [ya ma da], b as [yb mb db]; simpl.
  destruct (Z.compare_spec ya yb); try discriminate.
  destruct (Z.compare_spec ma mb); try discriminate.
  destruct (Z.compare_spec da db); try discriminate.
  intros _. congruence.
Qed.

Lemma date_compare_lt (a b : date) : date_compare a b = Lt <-> date_lt a b.
Proof.
  unfold date_compare, date_lt.
  destruct (Z.compare_spec (year a) (year b));
    destruct (Z.compare_spec (month a) (month b));
    destruct (Z.compare_spec (day a) (day b));
    split; intros; try discriminate; try reflexivity; lia.
Qed.

Lemma date_compare_gt (a b : date) : date_compare a b = Gt <-> date_lt b a.
Proof.
  unfold date_compare, date_lt.
  destruct (Z.compare_spec (year a) (year b));
    destruct (Z.compare_spec (month a) (month b));
    destruct (Z.compare_spec (day a) (day b));
    split; intros; try discriminate; try reflexivity; lia.
Qed.

Lemma date_lt_irrefl (a : date) : ~ date_lt a a.
Proof. unfold date_lt. lia. Qed.

Lemma date_lt_trans (a b c : date) : date_lt a b -> date_lt b c -> date_lt a c.
Proof. unfold date_lt. lia. Qed.

(** On the strings of valid dates the order of strings is the order of
    dates. *)
Lemma strftime_le (a b : date) :
  valid_date a -> valid_date b ->
  (String.le (strftime_ymd a) (strftime_ymd b) <-> a = b \/ date_lt a b).
Proof.
  intros Ha Hb. rewrite le_of_compare, strftime_compare by assumption.
  destruct (date_compare a b) eqn:E.
  - apply date_compare_eq in E. intuition congruence.
  - apply date_compare_lt in E. intuition congruence.
  - apply date_compare_gt in E. split; [congruence |].
    intros [-> | Hlt]; exfalso.
    + by apply (date_lt_irrefl b).
    + apply (date_lt_irrefl a). by eapply date_lt_trans.
Qed.

Lemma strftime_inj (a b : date) :
  valid_date a -> valid_date b -> strftime_ymd a = strftime_ymd b -> a = b.
Proof.
  intros Ha Hb E. apply date_compare_eq.
  rewrite <- strftime_compare by assumption. rewrite E.
  clear. induction (strftime_ymd b) as [| c s IH]; simpl; [reflexivity |].
  unfold Ascii.compare. by rewrite N.compare_refl.
Qed.

Lemma match_month_padded (m : Z) (rest : string) :
  1 <= m <= 12 ->
  match_month (zero_padded 2 m (String "-" rest)) = Some (m, String "-" rest).
Proof.
  intros Hm.
  assert (m = 1 \/ m = 2 \/ m = 3 \/ m = 4 \/ m = 5 \/ m = 6 \/ m = 7 \/
          m = 8 \/ m = 9 \/ m = 10 \/ m = 11 \/ m = 12) as Hc by lia.
  repeat (destruct Hc as [-> | Hc]; [reflexivity |]). by subst.
Qed.

Lemma match_day_padded (d : Z) :
  1 <= d <= 31 -> match_day (zero_padded 2 d "") = Some (d, EmptyString).
Proof.
  intros Hd.
  assert (d = 1 \/ d = 2 \/ d = 3 \/ d = 4 \/ d = 5 \/ d = 6 \/ d = 7 \/
          d = 8 \/ d = 9 \/ d = 10 \/ d = 11 \/ d = 12 \/ d = 13 \/ d = 14 \/
          d = 15 \/ d = 16 \/ d = 17 \/ d = 18 \/ d = 19 \/ d = 20 \/
          d = 21 \/ d = 22 \/ d = 23 \/ d = 24 \/ d = 25 \/ d = 26 \/
          d = 27 \/ d = 28 \/ d = 29 \/ d = 30 \/ d = 31) as Hc by lia.
  repeat (destruct Hc as [-> | Hc]; [reflexivity |]). by subst.
Qed.

Lemma valid_dateb_true (d : date) : valid_date d -> valid_dateb d = true.
Proof.
  intros (Hy & Hm & Hd). unfold valid_dateb.
  repeat (apply andb_true_intro; split); lia.
Qed.

Lemma match_digit_char (k : Z) (s : string) :
  0 <= k <= 9 -> match_digit (String (digit_char k) s) = Some (k, s).
Proof.
  intros Hk.
  assert (k = 0 \/ k = 1 \/ k = 2 \/ k = 3 \/ k = 4 \/ k = 5 \/ k = 6 \/
          k = 7 \/ k = 8 \/ k = 9) as Hc by lia.
  repeat (destruct Hc as [-> | Hc]; [reflexivity |]). by subst.
Qed.

Lemma match_year_padded (y : Z) (rest : string) :
  0 <= y <= 9999 -> match_year (zero_padded 4 y rest) = Some (y, rest).
Proof.
  intros Hy. cbn [zero_padded]. unfold match_year.
  pose proof (Z.div_mod y 10 ltac:(lia)).
  pose proof (Z.mod_pos_bound y 10 ltac:(lia)).
  pose proof (Z.div_mod (y / 10) 10 ltac:(lia)).
  pose proof (Z.mod_pos_bound (y / 10) 10 ltac:(lia)).
  pose proof (Z.div_mod (y / 10 / 10) 10 ltac:(lia)).
  pose proof (Z.mod_pos_bound (y / 10 / 10) 10 ltac:(lia)).
  pose proof (Z.div_mod (y / 10 / 10 / 10) 10 ltac:(lia)).
  pose proof (Z.mod_pos_bound (y / 10 / 10 / 10) 10 ltac:(lia)).
  rewrite !match_digit_char by lia. do 2 f_equal. lia.
Qed.

(** Reading back the string written for a valid date gives the date. *)
Lemma strptime_strftime (d : date) :
  valid_date d -> strptime_ymd (strftime_ymd d) = Some d.
Proof.
  intros Hv. pose proof Hv as (Hy & Hm & Hd).
  pose proof (days_in_month_bounds (year d) (month d)) as Hd'.
  unfold strftime_ymd, strptime_ymd.
  rewrite match_year_padded by lia.
  rewrite match_month_padded by lia.
  rewrite match_day_padded by lia.
  unfold make_date. destruct d as [y m dd]; simpl in *.
  rewrite valid_dateb_true; [reflexivity |]. repeat split; simpl; lia.
Qed.

Lemma prev_day_year (d : date) : year d - 1 <= year (prev_day d) <= year d.
Proof.
  unfold prev_day. destruct (1 <? day d); [simpl; lia |].
  destruct (1 <? month d); simpl; lia.
Qed.

Lemma prev_day_valid (d : date) :
  valid_date d -> 2 <= year d -> valid_date (prev_day d).
Proof.
  intros (Hy & Hm & Hd) Hy2. unfold prev_day, valid_date.
  destruct (Z.ltb_spec 1 (day d)); [simpl; lia |].
  destruct (Z.ltb_spec 1 (month d)); simpl.
  - pose proof (days_in_month_bounds (year d) (month d - 1)). lia.
  - change (days_in_month (year d - 1) 12) with 31. lia.
Qed.

Lemma prev_day_lt (d : date) : valid_date d -> date_lt (prev_day d) d.
Proof.
  intros (Hy & Hm & Hd). unfold prev_day, date_lt.
  destruct (Z.ltb_spec 1 (day d)); [simpl; lia |].
  destruct (Z.ltb_spec 1 (month d)); simpl; lia.
Qed.

Lemma minus_days_valid (d : date) (n : nat) :
  valid_date d -> Z.of_nat n < year d ->
  valid_date (minus_days d n) /\ year d - Z.of_nat n <= year (minus_days d n).
Proof.
  intros Hv. induction n as [| n IH]; intros Hn.
  - simpl. split; [assumption | lia].
  - destruct IH as [IHv IHy]; [lia |]. cbn [minus_days].
    pose proof (prev_day_year (minus_days d n)).
    split; [apply prev_day_valid; [assumption | lia] | lia].
Qed.

Lemma minus_days_lt (d : date) (i j : nat) :
  valid_date d -> Z.of_nat j < year d -> (i < j)%nat ->
  date_lt (minus_days d j) (minus_days d i).
Proof.
  intros Hv Hj Hij. induction j as [| j IH]; [lia |].
  cbn [minus_days].
  destruct (minus_days_valid d j Hv ltac:(lia)) as [Hvj _].
  pose proof (prev_day_lt _ Hvj) as Hlt.
  destruct (decide (i = j)) as [-> | Hne]; [assumption |].
  eapply date_lt_trans; [exact Hlt |]. apply IH; lia.
Qed.

(** ** Rounding to hundredths *)

Lemma round_half_even_bounds (q : Q) :
  Qfloor q <= round_half_even q <= Qfloor q + 1.
Proof.
  unfold round_half_even.
  destruct (q - inject_Z (Qfloor q) ?= 1 # 2)%Q; [| lia | lia].
  destruct (Z.even (Qfloor q)); lia.
Qed.





(** ** Reading back what [format_2f] and [py_str] write *)

Lemma split_point_uint (u : Decimal.uint) (rest : string) :
  split_point (NilEmpty.string_of_uint u ++ String "." rest) =
  Some (NilEmpty.string_of_uint u, rest).
Proof. induction u; simpl; rewrite ?IHu; reflexivity. Qed.

Lemma to_int_nonneg (n : Z) :
  0 <= n ->
  exists u, Z.to_int n = Decimal.Pos u /\ u <> Decimal.Nil /\ Z.of_uint u = n.
Proof.
  intros Hn. pose proof (DecimalZ.of_to n) as E.
  destruct n as [| p | p]; [| | lia]; simpl in *.
  - exists (Decimal.D0 Decimal.Nil). repeat split; congruence.
  - exists (Pos.to_uint p). repeat split; [| exact E].
    intros Hnil. rewrite Hnil in E. discriminate.
Qed.

Lemma read_unsigned_2f_format (n k : Z) :
  0 <= n -> 0 <= k < 100 ->
  read_unsigned_2f (py_str n ++ String "." (zero_padded 2 k "")) =
  Some (100 * n + k).
Proof.
  intros Hn Hk. destruct (to_int_nonneg n Hn) as (u & Eu & Hnil & Ez).
  unfold py_str, read_unsigned_2f. rewrite Eu. cbn [NilZero.string_of_int].
  replace (NilZero.string_of_uint u) with (NilEmpty.string_of_uint u)
    by (destruct u; [congruence | reflexivity ..]).
  rewrite split_point_uint. cbn [zero_padded].
  pose proof (Z.div_mod k 10 ltac:(lia)).
  pose proof (Z.mod_pos_bound k 10 ltac:(lia)).
  pose proof (Z.div_mod (k / 10) 10 ltac:(lia)).
  pose proof (Z.mod_pos_bound (k / 10) 10 ltac:(lia)).
  rewrite !digit_val_char by lia.
  replace (NilZero.uint_of_string (NilEmpty.string_of_uint u)) with (Some u).
  - f_equal. lia.
  - unfold NilZero.uint_of_string.
    destruct u; [congruence | simpl; by rewrite ?NilEmpty.usu ..].
Qed.

(** A price that is not negative is printed without a sign, and the
    decimal printed is its number of hundredths. *)
Lemma read_2f_format (x : Q) :
  (0 <= x)%Q -> read_2f (format_2f x) = Some (hundredths x).
Proof.
  intros Hx. unfold format_2f.
  destruct (Qlt_le_dec x 0) as [Hneg | _]; [lra |].
  assert (0 <= hundredths x) as Hc.
  { unfold hundredths. pose proof (round_half_even_bounds (Qabs x * 100)).
    assert (0 <= Qfloor (Qabs x * 100)).
    { change 0 with (Qfloor 0). apply Qfloor_resp_le.
      pose proof (Qabs_nonneg x). nra. }
    lia. }
  pose proof (Z.div_mod (hundredths x) 100 ltac:(lia)).
  pose proof (Z.mod_pos_bound (hundredths x) 100 ltac:(lia)).
  assert (0 <= hundredths x / 100) as Hq by (apply Z.div_pos; lia).
  replace (read_2f _) with
    (read_unsigned_2f (py_str (hundredths x / 100) ++
                       String "." (zero_padded 2 (hundredths x mod 100) ""))).
  - rewrite read_unsigned_2f_format by lia. f_equal. lia.
  - destruct (to_int_nonneg _ Hq) as (u & Eu & Hnil & _).
    unfold py_str. rewrite Eu. cbn [NilZero.string_of_int].
    destruct u; [congruence | reflexivity ..].
Qed.

(** ** Generated prices *)

Section GeneratorFacts.
Context `{RoundingLaws}.

Lemma fl_proper (x y : Q) : (x == y)%Q -> (fl x == fl y)%Q.
Proof.
  intros E. apply Qle_antisym; apply fl_mono; rewrite E; apply Qle_refl.
Qed.

Lemma fl_ge_eighth (k : Z) (x : Q) :
  -8 <= k <= 8 -> (k # 8 <= x)%Q -> (k # 8 <= fl x)%Q.
Proof.
  intros Hk Hx. rewrite <- (fl_eighths k Hk). by apply fl_mono.
Qed.

Lemma fl_le_eighth (k : Z) (x : Q) :
  -8 <= k <= 8 -> (x <= k # 8)%Q -> (fl x <= k # 8)%Q.
Proof.
  intros Hk Hx. rewrite <- (fl_eighths k Hk). by apply fl_mono.
Qed.

(** The literals 0.02, 0.03 and 0.05 are at most a half. *)
Lemma fl_small_literal (n : Z) : 0 <= n <= 50 -> (fl (n # 100) <= 1 # 2)%Q.
Proof.
  intros Hn. assert (fl (n # 100) <= 4 # 8)%Q as Hle.
  { apply fl_le_eighth; [lia |]. unfold Qle; simpl. lia. }
  lra.
Qed.

Lemma base_price_ge_1 (sym : string) : (1 <= base_price sym)%Q.
Proof.
  assert (forall n : Z, 1 <= n -> (1 <= fl (inject_Z n))%Q) as Hfl.
  { intros n Hn. assert (8 # 8 <= fl (inject_Z n))%Q as Hle.
    { apply fl_ge_eighth; [lia |]. unfold Qle, inject_Z; simpl. lia. }
    lra. }
  unfold base_price, base_prices.
  repeat (rewrite lookup_insert; case_decide; [simpl; apply Hfl; lia |]).
  rewrite lookup_singleton. case_decide; simpl; apply Hfl; lia.
Qed.

Lemma py_max_cases (a b : Q) :
  (py_max a b = a \/ py_max a b = b) /\ (a <= py_max a b)%Q /\
  (b <= py_max a b)%Q.
Proof. unfold py_max. destruct (Qlt_le_dec a b); intuition lra. Qed.

Lemma py_min_cases (a b : Q) :
  (py_min a b = a \/ py_min a b = b) /\ (py_min a b <= a)%Q /\
  (py_min a b <= b)%Q.
Proof. unfold py_min. destruct (Qlt_le_dec b a); intuition lra. Qed.

(** The prices of one generated day, before they are printed: the low is
    at most the open and the close, the high at least both, and the low
    (so every price) is at least an eighth. *)
Lemma demo_prices_ordered (base : Q) (dr : day_draws) :
  (1 <= base)%Q -> draws_in_range dr ->
  let p := demo_prices base dr in
  (1 # 8 <= p_low p)%Q /\ (p_low p <= p_open p)%Q /\
  (p_low p <= p_close p)%Q /\ (p_open p <= p_high p)%Q /\
  (p_close p <= p_high p)%Q.
Proof.
  intros Hbase (Hdc & Hop & Hhi & Hlo & _). cbv zeta.
  unfold demo_prices; simpl.
  pose proof (fl_small_literal 5 ltac:(lia)) as L5.
  pose proof (fl_small_literal 2 ltac:(lia)) as L2.
  pose proof (fl_small_literal 3 ltac:(lia)) as L3.
  set (f_open := fadd 1 (u_open dr)).
  set (f_close := fadd 1 (u_daily_change dr)).
  set (f_high := fadd 1 (u_high dr)).
  set (f_low := fsub 1 (u_low dr)).
  assert (4 # 8 <= f_open)%Q as Hfo by (apply fl_ge_eighth; [lia | lra]).
  assert (4 # 8 <= f_close)%Q as Hfc by (apply fl_ge_eighth; [lia | lra]).
  assert (8 # 8 <= f_high)%Q as Hfh by (apply fl_ge_eighth; [lia | lra]).
  assert (4 # 8 <= f_low)%Q as Hfl1 by (apply fl_ge_eighth; [lia | lra]).
  assert (f_low <= 8 # 8)%Q as Hfl2 by (apply fl_le_eighth; [lia | lra]).
  set (o := fmul base f_open).
  assert (4 # 8 <= o)%Q as Ho by (apply fl_ge_eighth; [lia | nra]).
  set (c := fmul o f_close).
  assert (2 # 8 <= c)%Q as Hc by (apply fl_ge_eighth; [lia | nra]).
  assert (fl o == o)%Q as Io by apply fl_idem.
  assert (fl c == c)%Q as Ic by apply fl_idem.
  destruct (py_max_cases o c) as (Emax & Mo & Mc).
  destruct (py_min_cases o c) as (Emin & mo & mc).
  set (hi := py_max o c) in *. set (lo := py_min o c) in *.
  assert (fl hi == hi)%Q as Ihi by (destruct Emax as [-> | ->]; assumption).
  assert (fl lo == lo)%Q as Ilo by (destruct Emin as [-> | ->]; assumption).
  assert (2 # 8 <= lo)%Q as Hlo4 by (destruct Emin as [-> | ->]; lra).
  assert (hi <= fmul hi f_high)%Q as Hhigh.
  { rewrite <- Ihi at 1. apply fl_mono. nra. }
  assert (fmul lo f_low <= lo)%Q as Hlow.
  { rewrite <- Ilo at 2. apply fl_mono. nra. }
  assert (1 # 8 <= fmul lo f_low)%Q as Hlow8.
  { apply fl_ge_eighth; [lia | nra]. }
  repeat split; lra.
Qed.

End GeneratorFacts.

(** ** The generated time series *)

(** A loop that assigns [m[key i] = val i] for the [i] of a list without
    repetition, under keys that differ, fills exactly one entry per
    round. *)
Lemma foldl_insert_distinct {V : Type} (key : nat -> string) (val : nat -> V)
    (l : list nat) :
  NoDup l ->
  (forall i j, i ∈ l -> j ∈ l -> key i = key j -> i = j) ->
  let m := foldl (fun ts i => <[ key i := val i ]> ts) (∅ : gmap string V) l in
  size m = length l /\
  forall k v, m !! k = Some v <-> exists i, i ∈ l /\ k = key i /\ v = val i.
Proof.
  induction l as [| x l IH] using rev_ind; intros Hnd Hinj; cbv zeta.
  - simpl. split; [apply map_size_empty |].
    intros k v. rewrite lookup_empty. split; [discriminate |].
    intros (i & Hi & _). by apply elem_of_nil in Hi.
  - apply NoDup_app in Hnd as (Hnd & Hnotin & _).
    destruct IH as [IHsize IHlook]; [assumption | |].
    { intros i j Hi Hj. apply Hinj; apply elem_of_app; by left. }
    rewrite foldl_app. simpl. rewrite length_app. simpl.
    set (m := foldl _ ∅ l) in *.
    assert (m !! key x = None) as Hfresh.
    { destruct (m !! key x) as [v |] eqn:E; [| reflexivity].
      apply IHlook in E as (i & Hi & Hk & _).
      assert (x = i) as ->.
      { apply Hinj; [| | exact Hk]; apply elem_of_app;
          [right; by apply list_elem_of_singleton | by left]. }
      exfalso. apply (Hnotin i Hi). by apply list_elem_of_singleton. }
    split.
    + rewrite map_size_insert_None by assumption. lia.
    + intros k v. rewrite lookup_insert. case_decide as Hk.
      * subst k. split.
        -- intros [= <-]. exists x. split; [| done].
           apply elem_of_app. right. by apply list_elem_of_singleton.
        -- intros (i & Hi & Hki & ->). f_equal.
           assert (x = i) as ->; [| reflexivity].
           apply Hinj; [| exact Hi | exact Hki].
           apply elem_of_app. right. by apply list_elem_of_singleton.
      * rewrite IHlook. split.
        -- intros (i & Hi & Hki & ->). exists i.
           split; [apply elem_of_app; by left | done].
        -- intros (i & Hi & Hki & ->). exists i. split; [| done].
           apply elem_of_app in Hi as [Hi | Hi]; [assumption |].
           apply list_elem_of_singleton in Hi. congruence.
Qed.

Lemma printed_integer_str (m : gmap string json) (field : string) (n : Z) :
  m !! field = Some (JStr (py_str n)) ->
  printed_integer (JDict m) field = Some n.
Proof.
  intros Hm. unfold printed_integer, py_getitem. rewrite Hm.
  cbv beta iota. unfold py_str. rewrite NilZero.isi.
  - simpl. f_equal. apply DecimalZ.of_to.
  - intros E. pose proof (DecimalZ.of_to n) as Hn. rewrite E in Hn.
    simpl in Hn. subst n. discriminate.
  - intros E. pose proof (DecimalZ.of_to n) as Hn. rewrite E in Hn.
    simpl in Hn. subst n. discriminate.
Qed.

Lemma printed_hundredths_format (m : gmap string json) (field : string)
    (x : Q) :
  (0 <= x)%Q -> m !! field = Some (JStr (format_2f x)) ->
  printed_hundredths (JDict m) field = Some (hundredths x).
Proof.
  intros Hx Hm. unfold printed_hundredths, py_getitem. rewrite Hm.
  by apply read_2f_format.
Qed.

Section GeneratorContract.
Context `{RoundingLaws}.



Lemma demo_dates_distinct (today : date) (i j : nat) :
  valid_date today -> 1970 <= year today -> (i < 7)%nat -> (j < 7)%nat ->
  strftime_ymd (minus_days today i) = strftime_ymd (minus_days today j) ->
  i = j.
Proof.
  intros Hv Hy Hi Hj E.
  destruct (minus_days_valid today i Hv ltac:(lia)) as [Vi _].
  destruct (minus_days_valid today j Hv ltac:(lia)) as [Vj _].
  apply strftime_inj in E; [| assumption ..].
  destruct (Nat.lt_trichotomy i j) as [Hlt | [-> | Hgt]]; [| reflexivity |].
  - pose proof (minus_days_lt today i j Hv ltac:(lia) Hlt) as Hd.
    rewrite E in Hd. by apply date_lt_irrefl in Hd.
  - pose proof (minus_days_lt today j i Hv ltac:(lia) Hgt) as Hd.
    rewrite E in Hd. by apply date_lt_irrefl in Hd.
Qed.


End GeneratorContract.

(** ** The Store *)

Section StoreFacts.
Context `{Schema}.

Lemma upsert_lookup_same (now : Z) (r : price_record)
    (t : gmap (string * date) row) :
  upsert now r t !! key_of r =
  Some (row_of r (if t !! key_of r is Some _ then Some now
                  else created_at_default now)).
Proof.
  unfold upsert. destruct (t !! key_of r); by rewrite lookup_insert_eq.
Qed.

Lemma upsert_lookup_other (now : Z) (r : price_record)
    (t : gmap (string * date) row) (k : string * date) :
  k <> key_of r -> upsert now r t !! k = t !! k.
Proof.
  intros Hk. unfold upsert. destruct (t !! key_of r); by rewrite lookup_insert_ne.
Qed.

Lemma upsert_dom (now : Z) (r : price_record) (t : gmap (string * date) row) :
  dom (upsert now r t) = {[ key_of r ]} ∪ dom t.
Proof. unfold upsert. destruct (t !! key_of r); apply dom_insert_L. Qed.

Lemma executemany_accepts (f : db_faults) (now : Z) (rs : list price_record) :
  execute_fails_at f = None -> Forall (fun r => db_accepts r = true) rs ->
  forall (i : nat) (s : state),
    executemany f now i rs s =
    (Ok tt, State (table s) (apply_batch now rs (txn s)) (connections s)
                  (cursors s) (cursor_bound s)
                  (trace s ++ map (fun r => EExecute (symbol r) (on_date r)) rs)).
Proof.
  intros Hf Hall. induction Hall as [| r rs Hr _ IH]; intros i s.
  - simpl. unfold ret. rewrite app_nil_r. by destruct s.
  - cbn [executemany]. unfold bind at 1. unfold execute at 1.
    rewrite Hf, Hr. rewrite bool_decide_eq_false_2 by discriminate. simpl.
    rewrite IH. simpl. by rewrite <- app_assoc.
Qed.

(** A batch the schema accepts, on a database that works, is committed
    whole, and the connection and the cursor are closed. *)
Lemma save_to_database_success (now : Z) (rs : list price_record) (s : state) :
  rs <> [] -> Forall (fun r => db_accepts r = true) rs ->
  save_to_database no_faults now rs s =
  (Ok true,
   State (apply_batch now rs (table s)) (apply_batch now rs (table s))
         (connections s) (cursors s) true
         (trace s ++ [EConnect; ECursor] ++
          map (fun r => EExecute (symbol r) (on_date r)) rs ++
          [ECommit; ECursorClose; EConnectionClose])).
Proof.
  intros Hne Hall. destruct rs as [| r rs']; [done |].
  unfold save_to_database. remember (r :: rs') as rs eqn:Ers. clear Ers.
  unfold try_finally, try_except, connect_to_database, bind, ret, db_connect,
    open_cursor, commit, cursor_close, connection_close, try_except, enter_call.
  simpl. rewrite executemany_accepts by done. simpl.
  rewrite <- !app_assoc. reflexivity.
Qed.

Lemma last_for_key_snoc (k : string * date) (rs : list price_record)
    (r : price_record) :
  last_for_key k (rs ++ [r]) =
  if decide (key_of r = k) then Some r else last_for_key k rs.
Proof.
  unfold last_for_key. rewrite filter_app, filter_cons, filter_nil.
  case_decide; [apply last_snoc | by rewrite app_nil_r].
Qed.

Lemma apply_batch_snoc (now : Z) (rs : list price_record) (r : price_record)
    (t : gmap (string * date) row) :
  apply_batch now (rs ++ [r]) t = upsert now r (apply_batch now rs t).
Proof. unfold apply_batch. by rewrite foldl_app. Qed.

Lemma apply_batch_dom (now : Z) (rs : list price_record)
    (t : gmap (string * date) row) :
  dom (apply_batch now rs t) = dom t ∪ list_to_set (key_of <$> rs).
Proof.
  induction rs as [| r rs IH] using rev_ind.
  - simpl. set_solver.
  - rewrite apply_batch_snoc, upsert_dom, IH, fmap_app, list_to_set_app_L.
    simpl. set_solver.
Qed.

Lemma apply_batch_untouched (now : Z) (rs : list price_record)
    (t : gmap (string * date) row) (k : string * date) :
  last_for_key k rs = None -> apply_batch now rs t !! k = t !! k.
Proof.
  induction rs as [| r rs IH] using rev_ind; [done |].
  rewrite last_for_key_snoc, apply_batch_snoc.
  case_decide as Hk; [discriminate |]. intros Hl.
  rewrite upsert_lookup_other by congruence. by apply IH.
Qed.

(** A key that is in the table before the batch holds, after it, the
    values of the last record of the batch under that key, with
    [created_at] set to the time of the transaction. *)
Lemma apply_batch_existing (now : Z) (rs : list price_record)
    (t : gmap (string * date) row) (k : string * date) (r : price_record) :
  is_Some (t !! k) -> last_for_key k rs = Some r ->
  apply_batch now rs t !! k = Some (row_of r (Some now)).
Proof.
  intros Hin. revert r. induction rs as [| x rs IH] using rev_ind; [done |].
  intros r. rewrite last_for_key_snoc, apply_batch_snoc.
  case_decide as Hk.
  - intros [= ->]. subst k. rewrite upsert_lookup_same.
    assert (is_Some (apply_batch now rs t !! key_of r)) as [old ->]; [| done].
    apply elem_of_dom. rewrite apply_batch_dom.
    apply elem_of_union_l. by apply elem_of_dom.
  - intros Hl. rewrite upsert_lookup_other by congruence. by apply IH.
Qed.

Lemma last_for_key_in_batch (k : string * date) (rs : list price_record)
    (r : price_record) :
  last_for_key k rs = Some r -> k ∈ (list_to_set (key_of <$> rs) : gset _).
Proof.
  unfold last_for_key. intros Hl. apply last_Some_elem_of in Hl.
  apply list_elem_of_filter in Hl as [<- Hr].
  apply elem_of_list_to_set, list_elem_of_fmap. by exists r.
Qed.

Lemma only_emits_ret (P : event -> Prop) {A} (a : A) : only_emits P (ret a).
Proof.
  intros s r s' [= <- <-]. exists []. by rewrite app_nil_r.
Qed.

Lemma only_emits_bind (P : event -> Prop) {A B} (m : M A) (k : A -> M B) :
  only_emits P m -> (forall a, only_emits P (k a)) -> only_emits P (bind m k).
Proof.
  intros Hm Hk s r s' E. unfold bind in E.
  destruct (m s) as [[a | e] s1] eqn:E1.
  - destruct (Hm _ _ _ E1) as (ev1 & T1 & F1).
    destruct (Hk a _ _ _ E) as (ev2 & T2 & F2).
    exists (ev1 ++ ev2). rewrite T2, T1, app_assoc.
    split; [reflexivity | by apply Forall_app].
  - injection E as <- <-. by apply (Hm _ _ _ E1).
Qed.

Lemma only_emits_try_except (P : event -> Prop) {A} (body : M A)
    (handler : exn -> M A) :
  only_emits P body -> (forall e, only_emits P (handler e)) ->
  only_emits P (try_except body handler).
Proof.
  intros Hb Hh s r s' E. unfold try_except in E.
  destruct (body s) as [[a | e] s1] eqn:E1.
  - injection E as <- <-. by apply (Hb _ _ _ E1).
  - destruct (Hb _ _ _ E1) as (ev1 & T1 & F1).
    destruct (Hh e _ _ _ E) as (ev2 & T2 & F2).
    exists (ev1 ++ ev2). rewrite T2, T1, app_assoc.
    split; [reflexivity | by apply Forall_app].
Qed.

Lemma only_emits_try_finally (P : event -> Prop) {A} (body : M A)
    (cleanup : M unit) :
  only_emits P body -> only_emits P cleanup ->
  only_emits P (try_finally body cleanup).
Proof.
  intros Hb Hc s r s' E. unfold try_finally in E.
  destruct (body s) as [r1 s1] eqn:E1.
  destruct (cleanup s1) as [r2 s2] eqn:E2.
  destruct (Hb _ _ _ E1) as (ev1 & T1 & F1).
  destruct (Hc _ _ _ E2) as (ev2 & T2 & F2).
  exists (ev1 ++ ev2).
  assert (s' = s2) as -> by (destruct r2; congruence).
  rewrite T2, T1, app_assoc. split; [reflexivity | by apply Forall_app].
Qed.

Ltac primitive_emits :=
  let s := fresh "s" in let r := fresh "r" in let s' := fresh "s'" in
  let E := fresh "E" in
  intros s r s' E;
  repeat match type of E with
         | context [if ?c then _ else _] => destruct c
         end;
  injection E as <- <-;
  [> first [ exists []; rewrite app_nil_r; split; [reflexivity | constructor]
           | eexists [_]; split; [reflexivity | by repeat constructor] ] ..].

Lemma only_emits_db_connect f : only_emits db_event (db_connect f).
Proof. unfold db_connect. primitive_emits. Qed.

Lemma only_emits_open_cursor f : only_emits db_event (open_cursor f).
Proof. unfold open_cursor. primitive_emits. Qed.

Lemma only_emits_execute f now i r : only_emits db_event (execute f now i r).
Proof. unfold execute. primitive_emits. Qed.

Lemma only_emits_commit f : only_emits db_event (commit f).
Proof. unfold commit. primitive_emits. Qed.

Lemma only_emits_rollback f : only_emits db_event (rollback f).
Proof. unfold rollback. primitive_emits. Qed.

Lemma only_emits_cursor_close f : only_emits db_event (cursor_close f).
Proof. unfold cursor_close. primitive_emits. Qed.

Lemma only_emits_connection_close f :
  only_emits db_event (connection_close f).
Proof. unfold connection_close. primitive_emits. Qed.

Lemma only_emits_executemany f now rs :
  forall i, only_emits db_event (executemany f now i rs).
Proof.
  induction rs as [| r rs IH]; intros i; cbn [executemany].
  - apply only_emits_ret.
  - apply only_emits_bind; [apply only_emits_execute | intros _; apply IH].
Qed.

(** Whatever fails, a call of [save_to_database] adds only database
    events to the trace. *)
Lemma only_emits_save_to_database f now rs :
  only_emits db_event (save_to_database f now rs).
Proof.
  intros s r s' E. unfold save_to_database in E.
  destruct rs as [| r0 rs'].
  { injection E as <- <-. exists []. by rewrite app_nil_r. }
  remember (r0 :: rs') as rs eqn:Ers. clear Ers.
  revert E. change (trace s) with (trace (enter_call s)).
  generalize (enter_call s). clear s. intros s E. revert s r s' E.
  apply only_emits_bind.
  - apply only_emits_try_except.
    + apply only_emits_bind; [apply only_emits_db_connect |].
      intros _. apply only_emits_ret.
    + intros _. apply only_emits_ret.
  - intros [|]; simpl; [| apply only_emits_ret].
    apply only_emits_try_finally.
    + apply only_emits_try_except.
      * apply only_emits_bind; [apply only_emits_open_cursor | intros _].
        apply only_emits_bind; [apply only_emits_executemany | intros _].
        apply only_emits_bind; [apply only_emits_commit | intros _].
        apply only_emits_ret.
      * intros _. apply only_emits_bind; [apply only_emits_rollback |].
        intros _. apply only_emits_ret.
    + apply only_emits_bind; [apply only_emits_cursor_close |].
      intros _. apply only_emits_connection_close.
Qed.

Lemma keeps_resources_ret {A} (a : A) : keeps_resources (ret a).
Proof. by intros s r s' [= <- <-]. Qed.

Lemma keeps_resources_bind {A B} (m : M A) (k : A -> M B) :
  keeps_resources m -> (forall a, keeps_resources (k a)) ->
  keeps_resources (bind m k).
Proof.
  intros Hm Hk s r s' E. unfold bind in E.
  destruct (m s) as [[a | e] s1] eqn:E1.
  - destruct (Hm _ _ _ E1) as (C1 & K1 & B1).
    destruct (Hk a _ _ _ E) as (C2 & K2 & B2). repeat split; congruence.
  - injection E as <- <-. by apply (Hm _ _ _ E1).
Qed.

Lemma keeps_resources_execute f now i r : keeps_resources (execute f now i r).
Proof.
  intros s res s' E. unfold execute in E.
  destruct (_ || _); by injection E as <- <-.
Qed.

Lemma keeps_resources_executemany f now rs :
  forall i, keeps_resources (executemany f now i rs).
Proof.
  induction rs as [| r rs IH]; intros i; cbn [executemany].
  - apply keeps_resources_ret.
  - apply keeps_resources_bind; [apply keeps_resources_execute |].
    intros _. apply IH.
Qed.

Lemma keeps_resources_commit f : keeps_resources (commit f).
Proof.
  intros s res s' E. unfold commit in E.
  destruct (commit_fails f); by injection E as <- <-.
Qed.

Lemma keeps_resources_rollback f : keeps_resources (rollback f).
Proof.
  intros s res s' E. unfold rollback in E.
  destruct (rollback_fails f); by injection E as <- <-.
Qed.

(** When the cursor can be had and the two [close] calls work, every way
    out of [save_to_database] (success, a statement or the commit
    failing, even the rollback failing) leaves as many connections and
    cursors open as there were. *)
Lemma save_to_database_releases (f : db_faults) (now : Z)
    (rs : list price_record) (s : state) :
  cursor_fails f = false -> cursor_close_fails f = false ->
  connection_close_fails f = false ->
  forall r s', save_to_database f now rs s = (r, s') ->
    connections s' = connections s /\ cursors s' = cursors s.
Proof.
  intros Hcur Hcc Hconn r s' E. unfold save_to_database in E.
  destruct rs as [| r0 rs']; [by injection E as <- <- |].
  remember (r0 :: rs') as rs eqn:Ers. clear Ers.
  unfold bind at 1, connect_to_database, try_except, bind at 1, db_connect
    in E.
  destruct (connect_fails f); [by injection E as <- <- |]. cbn [ret negb] in E.
  unfold try_finally, try_except, bind at 1, open_cursor in E.
  rewrite Hcur in E.
  set (s2 := State _ _ _ _ true _) in E.
  assert (connections s2 = S (connections s) /\
          cursors s2 = S (cursors s) /\ cursor_bound s2 = true)
    as (C2 & K2 & B2) by done.
  clearbody s2.
  set (rest := bind (executemany f now 0 rs) _) in E.
  assert (keeps_resources rest) as Hrest.
  { apply keeps_resources_bind; [apply keeps_resources_executemany |].
    intros _. apply keeps_resources_bind; [apply keeps_resources_commit |].
    intros _. apply keeps_resources_ret. }
  destruct (rest s2) as [r2 s3] eqn:E2.
  destruct (Hrest _ _ _ E2) as (C3 & K3 & B3).
  assert (exists r4 s4,
            match r2 with
            | Ok a => (Ok a, s3)
            | Raised _ => bind (rollback f) (fun _ => ret false) s3
            end = (r4, s4) /\
            connections s4 = connections s2 /\ cursors s4 = cursors s2 /\
            cursor_bound s4 = true) as (r4 & s4 & E4 & C4 & K4 & B4).
  { destruct r2 as [a | e].
    { exists (Ok a), s3. repeat split; congruence. }
    destruct (bind (rollback f) (fun _ => ret false) s3) as [r4 s4] eqn:E4.
    exists r4, s4. split; [reflexivity |].
    assert (keeps_resources (bind (rollback f) (fun _ => ret false))) as Hrb.
    { apply keeps_resources_bind; [apply keeps_resources_rollback |].
      intros _. apply keeps_resources_ret. }
    destruct (Hrb _ _ _ E4) as (C4 & K4 & B4). repeat split; congruence. }
  rewrite E4 in E.
  unfold bind, cursor_close, connection_close in E.
  rewrite B4, Hcc, Hconn in E. simpl in E.
  destruct r4; injection E as <- <-; simpl; rewrite ?C4, ?K4, ?C2, ?K2; done.
Qed.

End StoreFacts.

Section StoreTheorems.
Context `{Schema}.

(** C2 (amended). A batch the schema accepts, on a database that works:
    a key that is already in the table gets the four prices and the
    volume of the batch, and its [created_at] is set to the time of the
    upserting transaction. After the same batch is stored a second time
    the table has the same keys as after the first, every key of the
    batch holds the values of the second call with [created_at] at the
    time of the second call, and the other keys are as before. *)
Theorem save_to_database_conflict_update (now1 now2 : Z)
    (rs : list price_record) (s : state) :
  rs <> [] -> Forall (fun r => db_accepts r = true) rs ->
  let once := save_to_database no_faults now1 rs s in
  let twice := save_to_database no_faults now2 rs once.2 in
  once.1 = Ok true /\ twice.1 = Ok true /\
  (forall k old r, table s !! k = Some old -> last_for_key k rs = Some r ->
     table once.2 !! k = Some (row_of r (Some now1))) /\
  dom (table twice.2) = dom (table once.2) /\
  (forall k r, last_for_key k rs = Some r ->
     table twice.2 !! k = Some (row_of r (Some now2))) /\
  (forall k, last_for_key k rs = None -> table twice.2 !! k = table s !! k).
Proof.
  intros Hne Hall. cbv zeta.
  rewrite (save_to_database_success now1 rs s Hne Hall). cbn [fst snd].
  rewrite (save_to_database_success now2 rs _ Hne Hall). cbn [fst snd table].
  split; [reflexivity |]. split; [reflexivity |]. split; [| split; [| split]].
  - intros k old r Hk Hl. apply apply_batch_existing; [by eexists | done].
  - rewrite (apply_batch_dom now2), (comm_L (∪)). apply subseteq_union_1_L.
    rewrite apply_batch_dom. apply union_subseteq_r.
  - intros k r Hl. apply apply_batch_existing; [| done].
    apply elem_of_dom. rewrite apply_batch_dom. apply elem_of_union_r.
    by eapply last_for_key_in_batch.
  - intros k Hl. by rewrite !apply_batch_untouched.
Qed.

(** C5, at the failing input. When the connection is there and
    [connection.cursor()] raises, the handler rolls back, the [finally]
    block then reads the unassigned variable [cursor], and the
    [UnboundLocalError] leaves the function before
    [connection.close()]: the connection stays open. *)
Theorem save_to_database_leaks_connection (now : Z) (r : price_record)
    (rs : list price_record) (s : state) :
  save_to_database cursor_fault now (r :: rs) s =
  (Raised UnboundLocalError,
   State (table s) (table s) (S (connections s)) (cursors s) false
         (trace s ++ [EConnect; ERollback])).
Proof.
  unfold save_to_database, try_finally, try_except, connect_to_database,
    bind, ret, db_connect, open_cursor, rollback, cursor_close, enter_call.
  simpl. by rewrite <- app_assoc.
Qed.

(** C8. With an empty sequence of records [save_to_database] returns
    [False]; it raises nothing and leaves the state as it was: no rows
    written, no connection opened, no event. *)
Theorem save_to_database_empty (f : db_faults) (now : Z) (s : state) :
  save_to_database f now [] s = (Ok false, s).
Proof. reflexivity. Qed.

End StoreTheorems.

(** ** The Parser *)

#[global] Instance str_ge_trans : Transitive str_ge.
Proof. intros a b c Hab Hbc. unfold str_ge in *. by etrans. Qed.

#[global] Instance str_ge_total : Total str_ge.
Proof. intros a b. unfold str_ge. destruct (total String.le a b); auto. Qed.

Lemma StronglySorted_strict {A} (R : relation A) (l : list A) :
  StronglySorted R l -> NoDup l ->
  StronglySorted (fun a b => R a b /\ a <> b) l.
Proof.
  induction 1 as [| a k Hs IH Hall]; intros Hnd; [constructor |].
  apply NoDup_cons in Hnd as [Ha Hk]. constructor; [by apply IH |].
  apply Forall_forall. intros b Hb. split.
  - by eapply Forall_forall in Hall.
  - intros ->. by apply Ha.
Qed.

(** Sorting a list without repetition in the order of
    [sorted(..., reverse=True)] gives a strictly descending list. *)
Lemma sorted_desc_strict (l : list string) :
  NoDup l ->
  sorted_desc l ≡ₚ l /\
  StronglySorted (fun a b => str_ge a b /\ a <> b) (sorted_desc l).
Proof.
  intros Hnd. pose proof (merge_sort_Permutation str_ge l) as Hperm.
  split; [exact Hperm |]. apply StronglySorted_strict.
  - apply (StronglySorted_merge_sort str_ge).
  - unfold sorted_desc. by rewrite Hperm.
Qed.

Lemma StronglySorted_take {A} (R : relation A) (n : nat) (l : list A) :
  StronglySorted R l -> StronglySorted R (take n l).
Proof.
  intros Hs. rewrite <- (take_drop n l) in Hs.
  by apply StronglySorted_app_1_l in Hs.
Qed.

(** Sortedness carries over along a pointwise relation between lists. *)
Lemma StronglySorted_Forall2 {A B} (P : relation A) (Q : relation B)
    (R : A -> B -> Prop) (l : list A) (k : list B) :
  (forall a1 a2 b1 b2, R a1 b1 -> R a2 b2 -> P a1 a2 -> Q b1 b2) ->
  Forall2 R l k -> StronglySorted P l -> StronglySorted Q k.
Proof.
  intros HPQ HF. induction HF as [| a b l k Hab HF IH]; intros Hs.
  - constructor.
  - apply StronglySorted_inv in Hs as [Hs Hall].
    constructor; [by apply IH |].
    clear IH Hs. induction HF as [| a' b' l k Hab' HF IH]; [constructor |].
    apply Forall_cons in Hall as [Ha' Hall].
    constructor; [by eapply HPQ | by apply IH].
Qed.

Section ParserFacts.
Context `{Conversions}.

(** What one round of the loop gives on a well-formed entry: no check
    stands between the converted values and the record. *)
Lemma parse_entry_well_formed (ts : gmap string json) (sym k : string)
    (v : json) (d : date) :
  ts !! k = Some v -> valid_date d -> k = strftime_ymd d -> numeric_entry v ->
  exists o h l c vol,
    py_getitem v "1. open" ≫= py_float = Some o /\
    py_getitem v "2. high" ≫= py_float = Some h /\
    py_getitem v "3. low" ≫= py_float = Some l /\
    py_getitem v "4. close" ≫= py_float = Some c /\
    py_getitem v "5. volume" ≫= py_int = Some vol /\
    parse_entry (JDict ts) sym k = Some (PriceRecord sym d o h l c vol).
Proof.
  intros Hk Hd -> ([o Ho] & [h Hh] & [l Hl] & [c Hc] & [vol Hv]).
  exists o, h, l, c, vol. repeat (split; [assumption |]).
  unfold parse_entry. cbn [py_getitem]. rewrite Hk. simpl.
  rewrite strptime_strftime by assumption. simpl.
  rewrite Ho, Hh, Hl, Hc, Hv. reflexivity.
Qed.

(** The keys the loop visits. *)
Lemma parse_body_well_formed (data : json) (sym : string)
    (ts : gmap string json) :
  py_getitem data "Time Series (Daily)" = Some (JDict ts) ->
  well_formed_series ts ->
  exists out,
    parse_body data sym = Some out /\
    Forall2 (fun k r => parse_entry (JDict ts) sym k = Some r /\
                        valid_date (on_date r) /\
                        k = strftime_ymd (on_date r))
            (take 7 (sorted_desc (elements (dom ts)))) out.
Proof.
  intros Hts Hwf. unfold parse_body. rewrite Hts. simpl.
  set (keys := take 7 (sorted_desc (elements (dom ts)))).
  assert (Forall (fun k => k ∈ dom ts) keys) as Hin.
  { apply Forall_forall. intros k Hk. apply elem_of_elements.
    apply elem_of_take in Hk as (i & Hk & _).
    apply list_elem_of_lookup_2 in Hk. unfold sorted_desc in Hk.
    by rewrite (merge_sort_Permutation str_ge (elements (dom ts))) in Hk. }
  clearbody keys. induction keys as [| k keys IH].
  - exists []. split; [reflexivity | constructor].
  - apply Forall_cons in Hin as [Hk Hin].
    destruct (IH Hin) as (out & Eout & HF).
    apply elem_of_dom in Hk as [v Hv].
    destruct (Hwf k v Hv) as [(d & Hd & Ek) Hnum].
    destruct (parse_entry_well_formed ts sym k v d Hv Hd Ek Hnum)
      as (o & h & l & c & vol & _ & _ & _ & _ & _ & Er).
    exists (PriceRecord sym d o h l c vol :: out). split.
    + cbn [mapM]. rewrite Er. simpl. rewrite Eout. reflexivity.
    + constructor; [| exact HF]. simpl. auto.
Qed.

End ParserFacts.

Lemma StronglySorted_NoDup_fmap {A B} (f : A -> B) (R : relation B)
    (l : list A) :
  (forall x, ~ R x x) ->
  StronglySorted (fun a b => R (f a) (f b)) l -> NoDup (f <$> l).
Proof.
  intros Hirr. induction 1 as [| a k Hs IH Hall]; [constructor |].
  rewrite fmap_cons. constructor; [| exact IH].
  intros Ha. apply list_elem_of_fmap in Ha as (b & Eb & Hb).
  eapply Forall_forall in Hall; [| exact Hb]. simpl in Hall.
  rewrite <- Eb in Hall. by apply Hirr in Hall.
Qed.

Section ParserTheorems.
Context `{Conversions}.

(** Between the strings of two valid dates, "not smaller and different"
    is "later". *)
Lemma str_ge_strict_date (a b : date) :
  valid_date a -> valid_date b ->
  str_ge (strftime_ymd a) (strftime_ymd b) ->
  strftime_ymd a <> strftime_ymd b -> date_lt b a.
Proof.
  intros Ha Hb Hge Hne. unfold str_ge in Hge.
  apply strftime_le in Hge as [-> | Hlt]; [done | assumption ..].
Qed.

(** The records made from the visited keys come in strictly descending
    order of date. *)
Lemma parsed_dates_descending (sym : string) (ts : gmap string json)
    (out : list price_record) :
  Forall2 (fun k r => parse_entry (JDict ts) sym k = Some r /\
                      valid_date (on_date r) /\
                      k = strftime_ymd (on_date r))
          (take 7 (sorted_desc (elements (dom ts)))) out ->
  StronglySorted (fun a b => date_lt (on_date b) (on_date a)) out.
Proof.
  intros HF.
  destruct (sorted_desc_strict (elements (dom ts)) (NoDup_elements _))
    as [_ Hsorted].
  refine (StronglySorted_Forall2 _ _ _ _ _ _ HF
            (StronglySorted_take _ 7 _ Hsorted)).
  intros k1 k2 r1 r2 (_ & V1 & ->) (_ & V2 & ->) [Hge Hne]. simpl.
  by apply str_ge_strict_date.
Qed.

(** C3. For a response whose time series has [N] entries, the keys being
    the strings of calendar dates and the fields convertible, the Parser
    returns 7 records if [N >= 7] and [N] records if [N < 7]; their
    dates are strictly descending and without repetition, they are dates
    of the series, and every date of the series that is left out is
    earlier than all those returned. *)
Theorem parse_stock_data_most_recent_seven (data : json) (sym : string)
    (ts : gmap string json) :
  py_getitem data "Time Series (Daily)" = Some (JDict ts) ->
  well_formed_series ts ->
  let out := parse_stock_data data sym in
  (7 <= size ts -> length out = 7)%nat /\
  (size ts < 7 -> length out = size ts)%nat /\
  StronglySorted (fun a b => date_lt (on_date b) (on_date a)) out /\
  NoDup (on_date <$> out) /\
  (forall r, r ∈ out -> strftime_ymd (on_date r) ∈ dom ts) /\
  (forall k, k ∈ dom ts ->
     (exists r, r ∈ out /\ k = strftime_ymd (on_date r)) \/
     (exists d, k = strftime_ymd d /\
                forall r, r ∈ out -> date_lt d (on_date r))).
Proof.
  intros Hts Hwf. cbv zeta.
  destruct (parse_body_well_formed data sym ts Hts Hwf) as (out & Eout & HF).
  unfold parse_stock_data. rewrite Eout.
  set (L := sorted_desc (elements (dom ts))) in *.
  destruct (sorted_desc_strict (elements (dom ts)) (NoDup_elements _))
    as [Hperm Hsorted]. fold L in Hperm, Hsorted.
  assert (length L = size ts) as HlenL.
  { rewrite Hperm. rewrite <- size_dom. reflexivity. }
  pose proof (Forall2_length _ _ _ HF) as Hlen. rewrite length_take in Hlen.
  pose proof (parsed_dates_descending sym ts out HF) as Hdesc.
  assert (forall r, r ∈ out ->
            exists k, k ∈ take 7 L /\ valid_date (on_date r) /\
                      k = strftime_ymd (on_date r)) as Hback.
  { intros r Hr. apply list_elem_of_lookup in Hr as [i Hi].
    destruct (Forall2_lookup_r _ _ _ _ _ HF Hi) as (k & Hk & _ & Hv & Ek).
    exists k. split; [by eapply list_elem_of_lookup_2 | done]. }
  split; [lia |]. split; [lia |]. split; [exact Hdesc |]. split; [| split].
  - apply (StronglySorted_NoDup_fmap on_date (fun a b => date_lt b a)).
    + intros x. apply date_lt_irrefl.
    + exact Hdesc.
  - intros r Hr. destruct (Hback r Hr) as (k & Hk & _ & <-).
    apply elem_of_elements. rewrite <- Hperm.
    apply elem_of_take in Hk as (i & Hk & _).
    by eapply list_elem_of_lookup_2.
  - intros k Hk. apply elem_of_elements in Hk. rewrite <- Hperm in Hk.
    rewrite <- (take_drop 7 L) in Hk, Hsorted.
    apply elem_of_app in Hk as [Hk | Hk].
    + left. apply list_elem_of_lookup in Hk as [i Hi].
      destruct (Forall2_lookup_l _ _ _ _ _ HF Hi) as (r & Hr & _ & _ & Ek).
      exists r. split; [by eapply list_elem_of_lookup_2 | done].
    + right.
      assert (k ∈ dom ts) as Hdom.
      { apply elem_of_elements. rewrite <- Hperm, <- (take_drop 7 L).
        apply elem_of_app. by right. }
      apply elem_of_dom in Hdom as [v Hv].
      destruct (Hwf k v Hv) as [(d & Vd & ->) _].
      exists d. split; [reflexivity |]. intros r Hr.
      destruct (Hback r Hr) as (k' & Hk' & Vr & ->).
      destruct (StronglySorted_app_1_elem_of _ _ _ _ _ Hsorted Hk' Hk)
        as [Hge Hne].
      by apply str_ge_strict_date.
Qed.

End ParserTheorems.

Section ParserToStore.
Context `{Schema}.

Lemma apply_batch_member (now : Z) (rs : list price_record)
    (t : gmap (string * date) row) (r : price_record) :
  r ∈ rs -> NoDup (key_of <$> rs) ->
  exists created, apply_batch now rs t !! key_of r = Some (row_of r created).
Proof.
  induction rs as [| x rs IH] using rev_ind; intros Hr Hnd.
  - by apply elem_of_nil in Hr.
  - rewrite fmap_app in Hnd. apply NoDup_app in Hnd as (Hnd & Hfresh & _).
    rewrite apply_batch_snoc.
    apply elem_of_app in Hr as [Hr | Hr%list_elem_of_singleton].
    + rewrite upsert_lookup_other; [by apply IH |].
      intros E. apply (Hfresh (key_of r)).
      * apply list_elem_of_fmap. by exists r.
      * rewrite E. simpl. apply list_elem_of_singleton. reflexivity.
    + subst x. rewrite upsert_lookup_same. by eexists.
Qed.

(** C10. The Parser checks no range. On a response whose time series is
    well formed, an entry among the seven most recent whose five fields
    convert to [o], [h], [l], [c], [v] gives the record that carries
    exactly these values, whatever they are: no hypothesis asks for a
    positive price or for [l <= o, c <= h]. The record is in the
    sequence handed on, and when the schema accepts that sequence the
    Store writes the row with the same values. *)
Theorem parse_stock_data_no_range_check (data : json) (sym : string)
    (ts : gmap string json) (k : string) (e : json) (d : date)
    (o h l c : float) (v : Z) :
  py_getitem data "Time Series (Daily)" = Some (JDict ts) ->
  well_formed_series ts ->
  k ∈ take 7 (sorted_desc (elements (dom ts))) ->
  ts !! k = Some e -> valid_date d -> k = strftime_ymd d ->
  py_getitem e "1. open" ≫= py_float = Some o ->
  py_getitem e "2. high" ≫= py_float = Some h ->
  py_getitem e "3. low" ≫= py_float = Some l ->
  py_getitem e "4. close" ≫= py_float = Some c ->
  py_getitem e "5. volume" ≫= py_int = Some v ->
  let r := PriceRecord sym d o h l c v in
  let out := parse_stock_data data sym in
  r ∈ out /\
  (Forall (fun x => db_accepts x = true) out ->
   forall (now : Z) (s : state),
     exists created,
       table (save_to_database no_faults now out s).2 !! (sym, d) =
       Some (row_of r created)).
Proof.
  intros Hts Hwf Hk He Vd Ek Ho Hh Hl Hc Hv. cbv zeta.
  destruct (parse_body_well_formed data sym ts Hts Hwf) as (out & Eout & HF).
  unfold parse_stock_data. rewrite Eout.
  destruct (Hwf k e He) as [_ Hnum].
  destruct (parse_entry_well_formed ts sym k e d He Vd Ek Hnum)
    as (o' & h' & l' & c' & v' & Ho' & Hh' & Hl' & Hc' & Hv' & Er).
  assert (o' = o) as -> by congruence. assert (h' = h) as -> by congruence.
  assert (l' = l) as -> by congruence. assert (c' = c) as -> by congruence.
  assert (v' = v) as -> by congruence.
  set (r := PriceRecord sym d o h l c v) in *.
  assert (r ∈ out) as Hr.
  { apply list_elem_of_lookup in Hk as [i Hi].
    destruct (Forall2_lookup_l _ _ _ _ _ HF Hi) as (r' & Hr' & Er' & _).
    assert (r' = r) as -> by congruence. by eapply list_elem_of_lookup_2. }
  split; [exact Hr |]. intros Hacc now s.
  assert (out <> []) as Hne by (intros ->; by apply elem_of_nil in Hr).
  rewrite (save_to_database_success now out s Hne Hacc). cbn [snd table].
  change (sym, d) with (key_of r). apply apply_batch_member; [exact Hr |].
  pose proof (parsed_dates_descending sym ts out HF) as Hdesc.
  pose proof (StronglySorted_NoDup_fmap on_date (fun a b => date_lt b a) out
                date_lt_irrefl Hdesc) as Hnd.
  clear -Hnd. induction out as [| x out IH]; [constructor |].
  rewrite fmap_cons in *. apply NoDup_cons in Hnd as [Hx Hnd].
  constructor; [| by apply IH]. intros Hin. apply Hx.
  apply list_elem_of_fmap in Hin as (y & Ey & Hy).
  apply list_elem_of_fmap. exists y. split; [| exact Hy].
  unfold key_of in Ey. congruence.
Qed.

End ParserToStore.

(** ** The fetch and the Runner *)

Section RunnerTheorems.
Context `{Rounding} `{Schema}.

(** The answers that are resolved by the demo data. *)
Lemma falls_back_fetch (resp : http_outcome) (env : demo_env) (sym : string) :
  falls_back resp ->
  fetch_stock_data resp env sym = Some (get_demo_data env sym).
Proof.
  intros [-> | [-> | (m & -> & Herr & Hnote & Hcase)]]; [done | done |].
  unfold fetch_stock_data, classify. cbn [py_in py_getitem].
  rewrite (bool_decide_eq_false_2 ("Error Message" ∈ dom m)) by assumption.
  rewrite (bool_decide_eq_false_2 ("Note" ∈ dom m)) by assumption. simpl.
  case_bool_decide as Hinfo.
  - apply elem_of_dom in Hinfo as [v ->]. reflexivity.
  - destruct Hcase as [Hin | Hts]; [done |].
    by rewrite (bool_decide_eq_false_2 ("Time Series (Daily)" ∈ dom m)).
Qed.

(** C1 (amended). A response object with a ['Note'] field makes
    [fetch_stock_data] return [None]: no demo data is generated, and the
    Runner ends the symbol as a failed fetch, without parsing or
    storing. The demo data is returned for a call that fails, and for a
    response object with neither an ['Error Message'] nor a ['Note']
    field that has an ['Information'] field or lacks the
    ['Time Series (Daily)'] key. *)
Theorem fetch_stock_data_note_fails (m : gmap string json) (env : demo_env)
    (sym : string) :
  "Note" ∈ dom m ->
  fetch_stock_data (JsonBody (JDict m)) env sym = None /\
  (forall (w : world) (i : nat) (s : state),
     http w i = JsonBody (JDict m) ->
     process_symbol w i sym s = (fetch_failed, emit (EFetch sym) s)) /\
  (forall resp : http_outcome,
     falls_back resp ->
     fetch_stock_data resp env sym = Some (get_demo_data env sym)).
Proof.
  intros Hnote.
  assert (forall env', fetch_stock_data (JsonBody (JDict m)) env' sym = None)
    as Hfetch.
  { intros env'. unfold fetch_stock_data, classify. cbn [py_in py_getitem].
    simpl. case_bool_decide as Herr.
    - apply elem_of_dom in Herr as [v ->]. reflexivity.
    - rewrite bool_decide_eq_true_2 by assumption.
      apply elem_of_dom in Hnote as [v ->]. reflexivity. }
  split; [apply Hfetch |]. split; [| intros resp; apply falls_back_fetch].
  intros w i s Hw. unfold process_symbol. rewrite Hw, Hfetch. reflexivity.
Qed.

(** C9. On the empty list of symbols [run_pipeline] returns [True] and
    leaves the state as it was: nothing is fetched, parsed or stored. *)
Theorem run_pipeline_empty (w : world) (s : state) :
  run_pipeline w (Some []) s = (true, s).
Proof. reflexivity. Qed.

Lemma outcomes_length (w : world) (symbols : list string) :
  forall i s, length (outcomes w i symbols s) = length symbols.
Proof.
  induction symbols as [| sym rest IH]; intros i s; [reflexivity |].
  cbn [outcomes]. destruct (process_symbol w i sym s) as [o s'].
  simpl. by rewrite IH.
Qed.

Lemma flag_after_succeeded (o : outcome) (b : bool) :
  flag_after o b = b && succeeded o.
Proof. destruct o, b; reflexivity. Qed.

Lemma run_loop_flag (w : world) (symbols : list string) :
  forall i b s,
    (run_loop w i symbols b s).1 =
    b && forallb succeeded (outcomes w i symbols s).
Proof.
  induction symbols as [| sym rest IH]; intros i b s.
  - simpl. by rewrite andb_true_r.
  - cbn [run_loop outcomes]. destruct (process_symbol w i sym s) as [o s'].
    rewrite IH, flag_after_succeeded. cbn [forallb].
    by rewrite andb_assoc.
Qed.

(** A symbol ends in [stored_ok] exactly when each of the three stages
    gave its result: the fetch a response that counts as true, the Parser
    at least one record, and the Store [True]. *)
Lemma process_symbol_stored_ok (w : world) (i : nat) (sym : string)
    (s : state) :
  (process_symbol w i sym s).1 = stored_ok <->
  exists data,
    fetch_stock_data (http w i) (demo w i) sym = Some data /\
    py_truthy data = true /\
    parse_stock_data data sym <> [] /\
    (save_to_database (faults w i) (db_time w i) (parse_stock_data data sym)
       (emit (EStore sym) (emit (EParse sym) (emit (EFetch sym) s)))).1
    = Ok true.
Proof.
  unfold process_symbol.
  destruct (fetch_stock_data (http w i) (demo w i) sym) as [data |]; simpl.
  2: { split; [discriminate | intros (? & Hx & _); discriminate Hx]. }
  destruct (py_truthy data) eqn:Etruthy; simpl.
  2: { split; [discriminate |]. intros (d' & [= <-] & Hx & _). congruence. }
  destruct (parse_stock_data data sym) as [| r rs] eqn:Eparse.
  { split; [discriminate |]. intros (d' & [= <-] & _ & Hne & _).
    by rewrite Eparse in Hne. }
  destruct (save_to_database _ _ _ _) as [[[|] | e] s3] eqn:Esave; simpl.
  - split; [| reflexivity]. intros _. exists data.
    rewrite Eparse, Esave. done.
  - split; [discriminate |]. intros (d' & [= <-] & _ & _ & Hs).
    rewrite Eparse, Esave in Hs. discriminate.
  - split; [discriminate |]. intros (d' & [= <-] & _ & _ & Hs).
    rewrite Eparse, Esave in Hs. discriminate.
Qed.

Lemma db_event_quiet (e : event) :
  db_event e -> is_fetch e = false /\ is_sleep e = false.
Proof. by destruct e. Qed.

(** The events of one symbol. *)
Lemma process_symbol_segment (w : world) (i : nat) (sym : string) (s : state) :
  exists seg,
    trace (process_symbol w i sym s).2 = trace s ++ seg /\
    segment_of (sym, (process_symbol w i sym s).1) seg.
Proof.
  unfold process_symbol, segment_of.
  destruct (no_data _).
  { exists [EFetch sym]. by split. }
  destruct (parse_stock_data _ sym) as [| r rs] eqn:Eparse.
  { exists [EFetch sym; EParse sym]. simpl. by rewrite <- app_assoc. }
  destruct (save_to_database _ _ _ _) as [res s3] eqn:Esave.
  destruct (only_emits_save_to_database _ _ _ _ _ _ Esave) as (evs & T & F).
  simpl in T.
  destruct res as [[|] | e]; simpl.
  - exists ([EFetch sym; EParse sym; EStore sym] ++ evs ++ [ESleep 12]).
    split; [| by exists evs].
    rewrite T. simpl. by rewrite <- !app_assoc.
  - exists ([EFetch sym; EParse sym; EStore sym] ++ evs).
    split; [| by exists evs].
    rewrite T. simpl. by rewrite <- !app_assoc.
  - exists ([EFetch sym; EParse sym; EStore sym] ++ evs).
    split; [| by exists evs].
    rewrite T. simpl. by rewrite <- !app_assoc.
Qed.

Lemma run_loop_segments (w : world) (symbols : list string) :
  forall i b s,
    exists segs,
      trace (run_loop w i symbols b s).2 = trace s ++ concat segs /\
      Forall2 segment_of (zip symbols (outcomes w i symbols s)) segs.
Proof.
  induction symbols as [| sym rest IH]; intros i b s.
  - exists []. simpl. by rewrite app_nil_r.
  - cbn [run_loop outcomes].
    destruct (process_symbol_segment w i sym s) as (seg & T & Hseg).
    destruct (process_symbol w i sym s) as [o s'] eqn:E. simpl in T, Hseg.
    destruct (IH (S i) (flag_after o b) s') as (segs & T' & Hsegs).
    exists (seg :: segs). split.
    + rewrite T', T. simpl. by rewrite <- app_assoc.
    + simpl. by constructor.
Qed.

Lemma filter_db_events (P : event -> Prop) `{forall e, Decision (P e)}
    (db : list event) :
  (forall e, db_event e -> ~ P e) -> Forall db_event db -> filter P db = [].
Proof.
  intros HP. induction 1 as [| e db He _ IH]; [reflexivity |].
  rewrite filter_cons_False by (by apply HP). exact IH.
Qed.

Lemma segment_fetch (so : string * outcome) (seg : list event) :
  segment_of so seg ->
  filter (fun e => is_fetch e = true) seg = [EFetch so.1].
Proof.
  assert (forall e, db_event e -> is_fetch e <> true) as Hq.
  { intros e He. destruct (db_event_quiet e He) as [-> _]. discriminate. }
  unfold segment_of. destruct so as [sym []]; simpl.
  - by intros ->.
  - by intros ->.
  - intros (db & Hdb & ->). rewrite filter_cons_True by reflexivity.
    do 2 rewrite filter_cons_False by (simpl; discriminate).
    by rewrite (filter_db_events _ db Hq Hdb).
  - intros (db & Hdb & ->). rewrite filter_cons_True by reflexivity.
    do 2 rewrite filter_cons_False by (simpl; discriminate).
    rewrite filter_app, (filter_db_events _ db Hq Hdb). reflexivity.
Qed.

Lemma segment_sleep (so : string * outcome) (seg : list event) :
  segment_of so seg ->
  filter (fun e => is_sleep e = true) seg = pause_after so.2.
Proof.
  assert (forall e, db_event e -> is_sleep e <> true) as Hq.
  { intros e He. destruct (db_event_quiet e He) as [_ ->]. discriminate. }
  unfold segment_of. destruct so as [sym []]; simpl.
  - by intros ->.
  - by intros ->.
  - intros (db & Hdb & ->).
    do 3 rewrite filter_cons_False by (simpl; discriminate).
    by rewrite (filter_db_events _ db Hq Hdb).
  - intros (db & Hdb & ->).
    do 3 rewrite filter_cons_False by (simpl; discriminate).
    rewrite filter_app, (filter_db_events _ db Hq Hdb). reflexivity.
Qed.

Lemma segments_fetches (sos : list (string * outcome))
    (segs : list (list event)) :
  Forall2 segment_of sos segs ->
  filter (fun e => is_fetch e = true) (concat segs) = EFetch <$> sos.*1.
Proof.
  induction 1 as [| so seg sos segs Hseg _ IH]; [reflexivity |].
  simpl. by rewrite filter_app, IH, (segment_fetch so seg Hseg).
Qed.

Lemma segments_sleeps (sos : list (string * outcome))
    (segs : list (list event)) :
  Forall2 segment_of sos segs ->
  filter (fun e => is_sleep e = true) (concat segs) =
  concat (pause_after <$> sos.*2).
Proof.
  induction 1 as [| so seg sos segs Hseg _ IH]; [reflexivity |].
  simpl. by rewrite filter_app, IH, (segment_sleep so seg Hseg).
Qed.

(** C7. The result of [run_pipeline] is the conjunction, over the
    symbols in order, of "this symbol was stored". Every symbol of the
    list is fetched and gets an outcome, whatever became of those before
    it; an outcome is [stored_ok] when fetch, parse and store all gave
    their result and a failure otherwise; and the result is [False]
    exactly when some symbol did not end in [stored_ok]. *)
Theorem run_pipeline_conjunction (w : world) (symbols : list string)
    (s : state) :
  let os := outcomes w 0 symbols s in
  let run := run_pipeline w (Some symbols) s in
  run.1 = forallb succeeded os /\
  length os = length symbols /\
  (run.1 = false <-> exists o, o ∈ os /\ o <> stored_ok) /\
  (exists evs, trace run.2 = trace s ++ evs /\
               filter (fun e => is_fetch e = true) evs = EFetch <$> symbols) /\
  (forall i sym s',
     (process_symbol w i sym s').1 = stored_ok <->
     exists data,
       fetch_stock_data (http w i) (demo w i) sym = Some data /\
       py_truthy data = true /\
       parse_stock_data data sym <> [] /\
       (save_to_database (faults w i) (db_time w i)
          (parse_stock_data data sym)
          (emit (EStore sym) (emit (EParse sym) (emit (EFetch sym) s')))).1
       = Ok true).
Proof.
  cbv zeta. unfold run_pipeline. simpl. rewrite run_loop_flag.
  rewrite andb_true_l. split; [reflexivity |].
  split; [apply outcomes_length |]. split; [| split].
  - generalize (outcomes w 0 symbols s). intros os.
    induction os as [| o os IH]; simpl.
    + split; [intros [=] |]. intros (o & Ho & _). by apply elem_of_nil in Ho.
    + rewrite andb_false_iff, IH. unfold succeeded.
      rewrite bool_decide_eq_false. split.
      * intros [Ho | (o' & Ho' & Hne)].
        -- exists o. split; [apply elem_of_cons; by left | done].
        -- exists o'. split; [apply elem_of_cons; by right | done].
      * intros (o' & [-> | Ho']%elem_of_cons & Hne); [by left |].
        right. by exists o'.
  - destruct (run_loop_segments w symbols 0 true s) as (segs & T & Hsegs).
    exists (concat segs). split; [exact T |].
    rewrite (segments_fetches _ _ Hsegs). f_equal.
    apply fst_zip. rewrite outcomes_length. lia.
  - intros i sym s'. apply process_symbol_stored_ok.
Qed.

(** C6. The events of a run are those of its symbols, one after the
    other in the order of the list. The events of a symbol are its
    fetch, then its parse and its store if it got that far, each once,
    and they end with the pause of 12 seconds exactly when the symbol
    reached [stored_ok]: after a failed fetch, parse or store the next
    symbol begins without a pause. So the pauses of the run are one per
    stored symbol, and its fetches are those of the list, once each:
    nothing is retried. *)
Theorem run_pipeline_pacing (w : world) (symbols : list string) (s : state) :
  let os := outcomes w 0 symbols s in
  exists segs : list (list event),
    trace (run_pipeline w (Some symbols) s).2 = trace s ++ concat segs /\
    Forall2 segment_of (zip symbols os) segs /\
    filter (fun e => is_sleep e = true) (concat segs) =
    concat (pause_after <$> os) /\
    filter (fun e => is_fetch e = true) (concat segs) = EFetch <$> symbols.
Proof.
  cbv zeta. unfold run_pipeline. simpl.
  destruct (run_loop_segments w symbols 0 true s) as (segs & T & Hsegs).
  exists segs. split; [exact T |]. split; [exact Hsegs |].
  rewrite (segments_sleeps _ _ Hsegs), (segments_fetches _ _ Hsegs).
  rewrite fst_zip by (rewrite outcomes_length; lia).
  rewrite snd_zip by (rewrite outcomes_length; lia). done.
Qed.

End RunnerTheorems.

(** ** The example rounding satisfies the laws *)

Lemma fl_grid_laws : @RoundingLaws fl_grid.
Proof.
  split; unfold fl, fl_grid.
  - intros x y Hxy.
    assert (Qfloor (x * inject_Z (2 ^ 20)) <= Qfloor (y * inject_Z (2 ^ 20)))
      as Hf.
    { apply Qfloor_resp_le. apply Qmult_le_compat_r; [exact Hxy | done]. }
    revert Hf. generalize (Qfloor (x * inject_Z (2 ^ 20))).
    generalize (Qfloor (y * inject_Z (2 ^ 20))). intros b a Hab.
    unfold Qle. simpl. lia.
  - intros x. generalize (Qfloor (x * inject_Z (2 ^ 20))). intros a.
    assert (Qfloor ((a # 2 ^ 20) * inject_Z (2 ^ 20)) = a) as ->;
      [| reflexivity].
    unfold Qfloor, Qmult, inject_Z. cbn [Qnum Qden].
    rewrite Pos.mul_1_r. apply Z.div_mul. done.
  - intros k Hk.
    assert (Qfloor ((k # 8) * inject_Z (2 ^ 20)) = k * 2 ^ 17) as ->.
    { unfold Qfloor, Qmult, inject_Z. cbn [Qnum Qden].
      rewrite Pos.mul_1_r.
      replace (k * 2 ^ 20) with (k * 2 ^ 17 * 8) by lia.
      apply Z.div_mul. done. }
    unfold Qeq. simpl. lia.
Qed.

(** ** More on the Store: all or nothing, and what it raises *)

Section StoreMore.
Context `{Schema}.

Lemma save_to_database_unfold (f : db_faults) (now : Z)
    (r0 : price_record) (rs : list price_record) (s : state) :
  save_to_database f now (r0 :: rs) s =
  bind (connect_to_database f) (fun connection =>
    if negb connection then ret false
    else try_finally
           (try_except (save_body f now (r0 :: rs)) (save_handler f))
           (save_cleanup f)) (enter_call s).
Proof. reflexivity. Qed.

Lemma executemany_table (f : db_faults) (now : Z) (rs : list price_record) :
  forall i s r s',
    executemany f now i rs s = (r, s') ->
    table s' = table s /\
    (forall u, r = Ok u -> txn s' = apply_batch now rs (txn s)).
Proof.
  induction rs as [| x rs IH]; intros i s r s' E.
  - injection E as <- <-. by split.
  - cbn [executemany] in E. unfold bind at 1, execute at 1 in E.
    destruct (_ || _).
    + injection E as <- <-. split; [done | discriminate].
    + apply IH in E as [Ht Hx]. simpl in Ht, Hx. split; [done |].
      intros u Hu. by rewrite (Hx u Hu).
Qed.

(** The body of the [try] either commits the whole batch and gives
    [True], or raises with the table as it was. *)
Lemma save_body_outcome (f : db_faults) (now : Z) (rs : list price_record)
    (s : state) (r : result bool) (s' : state) :
  save_body f now rs s = (r, s') ->
  (r = Ok true /\ table s' = apply_batch now rs (txn s)) \/
  ((exists e, r = Raised e) /\ table s' = table s).
Proof.
  unfold save_body. intros E. unfold bind at 1, open_cursor in E.
  destruct (cursor_fails f).
  { injection E as <- <-. right. split; [by eexists | done]. }
  unfold bind at 1 in E.
  destruct (executemany f now 0 rs _) as [[u | e] s2] eqn:E2.
  - apply executemany_table in E2 as [Ht Hx]. specialize (Hx u eq_refl).
    simpl in Ht, Hx. unfold bind, commit, ret in E.
    destruct (commit_fails f); injection E as <- <-.
    + right. split; [by eexists | done].
    + left. by split.
  - apply executemany_table in E2 as [Ht _]. injection E as <- <-.
    right. split; [by eexists | done].
Qed.

Lemma keeps_table_handler (f : db_faults) (e : exn) :
  keeps_table (save_handler f e) /\
  forall s r s', save_handler f e s = (r, s') -> r <> Ok true.
Proof.
  unfold save_handler, bind, rollback, ret. split.
  - intros s r s' E. destruct (rollback_fails f); by injection E as <- <-.
  - intros s r s' E.
    destruct (rollback_fails f); injection E as <- <-; discriminate.
Qed.

Lemma keeps_table_cleanup (f : db_faults) : keeps_table (save_cleanup f).
Proof.
  unfold save_cleanup, bind, cursor_close, connection_close.
  intros s r s' E. destruct (negb (cursor_bound s)).
  { by injection E as <- <-. }
  destruct (cursor_close_fails f); [by injection E as <- <- |].
  destruct (connection_close_fails f); by injection E as <- <-.
Qed.

Lemma save_to_database_table (f : db_faults) (now : Z)
    (rs : list price_record) (s : state) (r : result bool) (s' : state) :
  save_to_database f now rs s = (r, s') ->
  (table s' = table s \/ table s' = apply_batch now rs (table s)) /\
  (r = Ok true -> table s' = apply_batch now rs (table s)) /\
  (r = Ok false -> table s' = table s).
Proof.
  intros E. destruct rs as [| r0 rs'].
  { injection E as <- <-. split; [by left |]. split; [discriminate | done]. }
  rewrite save_to_database_unfold in E. remember (r0 :: rs') as rs eqn:Ers.
  clear Ers. unfold bind at 1, connect_to_database, try_except, bind at 1,
    db_connect in E.
  destruct (connect_fails f).
  { injection E as <- <-. split; [by left |]. split; [discriminate | done]. }
  cbn [ret negb] in E. unfold try_finally, try_except in E.
  set (s1 := State _ _ _ _ _ _) in E.
  assert (table s1 = table s /\ txn s1 = table s) as [T1 X1] by done.
  clearbody s1.
  destruct (save_body f now rs s1) as [r2 s2] eqn:E2.
  apply save_body_outcome in E2. rewrite X1, T1 in E2.
  assert (exists r3 s3,
            match r2 with
            | Ok a => (Ok a, s2)
            | Raised e => save_handler f e s2
            end = (r3, s3) /\
            ((r3 = Ok true /\ table s3 = apply_batch now rs (table s)) \/
             (r3 <> Ok true /\ table s3 = table s)))
    as (r3 & s3 & E3 & H3).
  { destruct E2 as [[-> Ht] | [[e ->] Ht]].
    - exists (Ok true), s2. split; [done | by left].
    - destruct (save_handler f e s2) as [r3 s3] eqn:E3.
      exists r3, s3. split; [done |]. right.
      destruct (keeps_table_handler f e) as [Hk Hne].
      split; [by eapply Hne | by rewrite (Hk _ _ _ E3)]. }
  rewrite E3 in E.
  destruct (save_cleanup f s3) as [r4 s4] eqn:E4.
  apply keeps_table_cleanup in E4.
  destruct H3 as [[-> Ht] | [Hne Ht]]; destruct r4 as [[] | e4];
    injection E as <- <-; rewrite E4, Ht.
  - split; [by right | done].
  - split; [by right |]. split; discriminate.
  - split; [by left |]. split; [done | done].
  - split; [by left |]. split; [discriminate | done].
Qed.

(** X1. Whatever fails, [save_to_database] leaves the table either as it
    was or with the whole batch applied, never with a part of it. When it
    returns [True] the whole batch is in the table, and when it returns
    [False] the table is as it was. *)
Theorem save_to_database_all_or_nothing (f : db_faults) (now : Z)
    (rs : list price_record) (s : state) :
  let out := save_to_database f now rs s in
  (table out.2 = table s \/ table out.2 = apply_batch now rs (table s)) /\
  (out.1 = Ok true -> table out.2 = apply_batch now rs (table s)) /\
  (out.1 = Ok false -> table out.2 = table s).
Proof.
  cbv zeta. destruct (save_to_database f now rs s) as [r s'] eqn:E.
  by apply (save_to_database_table f now rs s r s').
Qed.

(** X2. [save_to_database] reports a failed connection, a failed
    statement and a failed commit by returning [False]: with the cursor
    to be had and the rollback and the two [close] calls working, no
    exception leaves it. *)
Theorem save_to_database_no_exception (f : db_faults) (now : Z)
    (rs : list price_record) (s : state) :
  cursor_fails f = false -> rollback_fails f = false ->
  cursor_close_fails f = false -> connection_close_fails f = false ->
  exists b : bool, (save_to_database f now rs s).1 = Ok b.
Proof.
  intros Hcur Hrb Hcc Hconn.
  destruct (save_to_database f now rs s) as [r s'] eqn:E. simpl.
  destruct rs as [| r0 rs']; [injection E as <- <-; by exists false |].
  rewrite save_to_database_unfold in E. remember (r0 :: rs') as rs eqn:Ers.
  clear Ers. unfold bind at 1, connect_to_database, try_except, bind at 1,
    db_connect in E.
  destruct (connect_fails f); [injection E as <- <-; by exists false |].
  cbn [ret negb] in E. unfold try_finally, try_except in E.
  set (s1 := State _ _ _ _ _ _) in E. clearbody s1.
  unfold save_body in E. unfold bind at 1, open_cursor in E.
  rewrite Hcur in E.
  set (s2 := State _ _ _ _ true _) in E.
  assert (cursor_bound s2 = true) as B2 by done. clearbody s2.
  set (rest := bind (executemany f now 0 rs) _) in E.
  assert (keeps_resources rest) as Hrest.
  { apply keeps_resources_bind; [apply keeps_resources_executemany |].
    intros _. apply keeps_resources_bind; [apply keeps_resources_commit |].
    intros _. apply keeps_resources_ret. }
  destruct (rest s2) as [r2 s3] eqn:E2.
  destruct (Hrest _ _ _ E2) as (_ & _ & B3). rewrite B2 in B3.
  assert (exists (b : bool) s4,
            match r2 with
            | Ok a => (Ok a, s3)
            | Raised e => save_handler f e s3
            end = (Ok b, s4) /\ cursor_bound s4 = true)
    as (b & s4 & E4 & B4).
  { destruct r2 as [a | e]; [by exists a, s3 |].
    unfold save_handler, bind, rollback, ret. rewrite Hrb.
    eexists false, _. split; [reflexivity | done]. }
  rewrite E4 in E. exists b.
  unfold save_cleanup, bind, cursor_close, connection_close in E.
  rewrite B4, Hcc, Hconn in E. simpl in E. by injection E as <- _.
Qed.

(** X12. When the cursor can be had and the two [close] calls work,
    [save_to_database] closes what it opened on every way out (all
    statements done, a statement failing, the commit failing, the
    rollback failing too): as many connections and cursors are open
    after the call as before. *)
Theorem save_to_database_closes (f : db_faults) (now : Z)
    (rs : list price_record) (s : state) :
  cursor_fails f = false -> cursor_close_fails f = false ->
  connection_close_fails f = false ->
  connections (save_to_database f now rs s).2 = connections s /\
  cursors (save_to_database f now rs s).2 = cursors s.
Proof.
  intros Hcur Hcc Hconn.
  destruct (save_to_database f now rs s) as [r s'] eqn:E.
  by apply (save_to_database_releases f now rs s Hcur Hcc Hconn r s').
Qed.

End StoreMore.


(** ** More on the Parser: what it returns on any response *)

Lemma valid_dateb_valid (d : date) : valid_dateb d = true -> valid_date d.
Proof.
  unfold valid_dateb, valid_date. rewrite !andb_true_iff, !Z.leb_le. tauto.
Qed.

Lemma make_date_valid (y m dd : Z) (d : date) :
  make_date y m dd = Some d -> valid_date d.
Proof.
  unfold make_date. destruct (valid_dateb _) eqn:E; [| discriminate].
  intros [= <-]. by apply valid_dateb_valid.
Qed.

(** A string that [strptime] accepts is read as a date that exists. *)
Lemma strptime_valid (s : string) (d : date) :
  strptime_ymd s = Some d -> valid_date d.
Proof.
  unfold strptime_ymd. intros E.
  repeat match type of E with
         | match ?x with _ => _ end = _ => destruct x; try discriminate
         end.
  by eapply make_date_valid.
Qed.

#[global] Instance str_ge_antisymm : AntiSymm eq str_ge.
Proof. intros a b Hab Hba. unfold str_ge in *. by apply (anti_symm String.le). Qed.

Section ParserMore.
Context `{Conversions}.

Lemma parse_entry_inv (time_series : json) (sym k : string)
    (r : price_record) :
  parse_entry time_series sym k = Some r ->
  symbol r = sym /\ strptime_ymd k = Some (on_date r) /\
  exists daily_data,
    py_getitem time_series k = Some daily_data /\
    py_getitem daily_data "1. open" ≫= py_float = Some (open_price r) /\
    py_getitem daily_data "2. high" ≫= py_float = Some (high_price r) /\
    py_getitem daily_data "3. low" ≫= py_float = Some (low_price r) /\
    py_getitem daily_data "4. close" ≫= py_float = Some (close_price r) /\
    py_getitem daily_data "5. volume" ≫= py_int = Some (volume r).
Proof.
  unfold parse_entry. intros E.
  destruct (py_getitem time_series k) as [daily |] eqn:Eg; [| discriminate].
  simpl in E. destruct (strptime_ymd k) as [d |] eqn:Ed; [| discriminate].
  simpl in E.
  destruct (py_getitem daily "1. open" ≫= py_float) as [o |] eqn:Eo;
    [| discriminate]. simpl in E.
  destruct (py_getitem daily "2. high" ≫= py_float) as [h |] eqn:Eh;
    [| discriminate]. simpl in E.
  destruct (py_getitem daily "3. low" ≫= py_float) as [l |] eqn:El;
    [| discriminate]. simpl in E.
  destruct (py_getitem daily "4. close" ≫= py_float) as [c |] eqn:Ec;
    [| discriminate]. simpl in E.
  destruct (py_getitem daily "5. volume" ≫= py_int) as [v |] eqn:Ev;
    [| discriminate]. simpl in E.
  injection E as <-. simpl. split; [reflexivity |]. split; [reflexivity |].
  exists daily. repeat split; assumption.
Qed.

(** The records of a non-empty result, against the keys they were made
    from. *)
Lemma parse_stock_data_inv (data : json) (sym : string) :
  parse_stock_data data sym <> [] ->
  exists ts,
    py_getitem data "Time Series (Daily)" = Some (JDict ts) /\
    Forall2 (fun k r => parse_entry (JDict ts) sym k = Some r)
            (take 7 (sorted_desc (elements (dom ts))))
            (parse_stock_data data sym).
Proof.
  unfold parse_stock_data, parse_body.
  destruct (py_getitem data "Time Series (Daily)") as [series |];
    [| done]. simpl.
  destruct series as [| | | | | | ts]; try done. simpl.
  destruct (mapM _ _) as [out |] eqn:E; [| done].
  intros _. exists ts. split; [done |]. by apply mapM_Some.
Qed.

(** X3. Whatever the response is, [parse_stock_data] returns at most
    seven records; each carries the symbol it was called with and a date
    that exists, read from a key of the time series whose entry gave the
    record's five values. *)
Theorem parse_stock_data_records (data : json) (sym : string) :
  let out := parse_stock_data data sym in
  (length out <= 7)%nat /\
  forall r, r ∈ out ->
    symbol r = sym /\ valid_date (on_date r) /\
    exists ts k daily_data,
      py_getitem data "Time Series (Daily)" = Some (JDict ts) /\
      ts !! k = Some daily_data /\
      strptime_ymd k = Some (on_date r) /\
      py_getitem daily_data "1. open" ≫= py_float = Some (open_price r) /\
      py_getitem daily_data "2. high" ≫= py_float = Some (high_price r) /\
      py_getitem daily_data "3. low" ≫= py_float = Some (low_price r) /\
      py_getitem daily_data "4. close" ≫= py_float = Some (close_price r) /\
      py_getitem daily_data "5. volume" ≫= py_int = Some (volume r).
Proof.
  cbv zeta.
  destruct (decide (parse_stock_data data sym = [])) as [-> | Hne].
  { split; [simpl; lia |]. intros r Hr. by apply elem_of_nil in Hr. }
  destruct (parse_stock_data_inv data sym Hne) as (ts & Hts & HF).
  split.
  - rewrite <- (Forall2_length _ _ _ HF), length_take. lia.
  - intros r Hr. apply list_elem_of_lookup in Hr as [i Hi].
    destruct (Forall2_lookup_r _ _ _ _ _ HF Hi) as (k & _ & Hk).
    apply parse_entry_inv in Hk as (Hs & Hd & daily & Hg & Hv).
    split; [done |]. split; [by eapply strptime_valid |].
    exists ts, k, daily. done.
Qed.

(** The seven greatest keys of a series with at least seven keys stay the
    seven greatest when a smaller key is written. *)
Lemma newest_keys_insert_older (ts : gmap string json) (k : string)
    (v : json) :
  (7 <= size ts)%nat ->
  (forall k', k' ∈ take 7 (sorted_desc (elements (dom ts))) ->
              str_ge k' k /\ k' <> k) ->
  take 7 (sorted_desc (elements (dom (<[k:=v]> ts)))) =
  take 7 (sorted_desc (elements (dom ts))).
Proof.
  intros Hsize Hk. set (L := sorted_desc (elements (dom ts))) in *.
  destruct (sorted_desc_strict (elements (dom ts)) (NoDup_elements _))
    as [Hperm HsortedL]. fold L in Hperm, HsortedL.
  assert (StronglySorted str_ge L) as HL.
  { apply (StronglySorted_merge_sort str_ge). }
  destruct (decide (k ∈ dom ts)) as [Hin | Hnotin].
  { replace (dom (<[k:=v]> ts)) with (dom ts); [done |].
    rewrite dom_insert_L. set_solver. }
  assert (length (take 7 L) = 7%nat) as Hlen.
  { rewrite length_take. unfold L, sorted_desc.
    rewrite (merge_sort_Permutation str_ge). rewrite <- size_dom in Hsize.
    unfold size, set_size in Hsize. simpl in Hsize. lia. }
  set (L2 := take 7 L ++ sorted_desc (k :: drop 7 L)).
  assert (sorted_desc (elements (dom (<[k:=v]> ts))) = L2) as ->.
  { apply (StronglySorted_unique str_ge).
    - apply (StronglySorted_merge_sort str_ge).
    - apply StronglySorted_app_2.
      + intros x1 x2 Hx1 Hx2. unfold sorted_desc in Hx2.
        rewrite (merge_sort_Permutation str_ge) in Hx2.
        apply elem_of_cons in Hx2 as [-> | Hx2]; [by apply Hk |].
        rewrite <- (take_drop 7 L) in HL.
        by eapply StronglySorted_app_1_elem_of.
      + by apply StronglySorted_take.
      + apply (StronglySorted_merge_sort str_ge).
    - unfold sorted_desc at 1. rewrite (merge_sort_Permutation str_ge).
      rewrite dom_insert_L, elements_union_singleton by done.
      unfold L2, sorted_desc. rewrite (merge_sort_Permutation str_ge).
      rewrite <- Permutation_middle. constructor.
      rewrite (take_drop 7 L). by symmetry. }
  unfold L2. rewrite take_app_le by lia. by rewrite take_take.
Qed.

(** X4. Entries older than the seven most recent are never read: when a
    series has at least seven keys, writing any value, convertible or
    not, under a key below its seven greatest leaves the result of
    [parse_stock_data] as it was. *)
Theorem parse_stock_data_ignores_older (data data' : json) (sym : string)
    (ts : gmap string json) (k : string) (v : json) :
  py_getitem data "Time Series (Daily)" = Some (JDict ts) ->
  py_getitem data' "Time Series (Daily)" = Some (JDict (<[k:=v]> ts)) ->
  (7 <= size ts)%nat ->
  (forall k', k' ∈ take 7 (sorted_desc (elements (dom ts))) ->
              str_ge k' k /\ k' <> k) ->
  parse_stock_data data' sym = parse_stock_data data sym.
Proof.
  intros Hts Hts' Hsize Hk. unfold parse_stock_data, parse_body.
  rewrite Hts, Hts'. simpl.
  rewrite (newest_keys_insert_older ts k v Hsize Hk).
  erewrite Forall_mapM_ext; [reflexivity |].
  apply Forall_forall. intros k' Hk'. destruct (Hk k' Hk') as [_ Hne].
  unfold parse_entry. cbn [py_getitem]. by rewrite lookup_insert_ne.
Qed.

End ParserMore.


(** ** More on the fetch: when it fails and what it returns *)

Lemma is_substring_nonempty (p s : string) :
  p <> EmptyString -> is_substring p s = true -> s <> EmptyString.
Proof. intros Hp Hs ->. destruct p; [done | discriminate]. Qed.

Lemma py_in_true_truthy (key : string) (data : json) :
  key <> EmptyString -> py_in key data = Some true -> py_truthy data = true.
Proof.
  intros Hkey. destruct data as [| | | | s | l | m]; try discriminate; simpl.
  - intros [= Hs]. apply negb_true_iff, String.eqb_neq.
    by eapply is_substring_nonempty.
  - intros [= Hl]. destruct l; [discriminate | reflexivity].
  - intros [= Hm]. apply bool_decide_eq_true in Hm.
    apply negb_true_iff, bool_decide_eq_false. intros ->.
    by rewrite dom_empty_L in Hm.
Qed.

Section FetchMore.
Context `{Rounding}.

Lemma get_demo_data_truthy (env : demo_env) (sym : string) :
  py_truthy (get_demo_data env sym) = true.
Proof.
  unfold get_demo_data, py_truthy.
  apply negb_true_iff, bool_decide_eq_false. apply insert_non_empty.
Qed.

(** The three ways out of [fetch_stock_data]. *)
Lemma fetch_stock_data_cases (resp : http_outcome) (env : demo_env)
    (sym : string) :
  (fetch_stock_data resp env sym = None /\
   exists m, resp = JsonBody (JDict m) /\
             ("Error Message" ∈ dom m \/ "Note" ∈ dom m)) \/
  fetch_stock_data resp env sym = Some (get_demo_data env sym) \/
  (exists data,
     resp = JsonBody data /\ fetch_stock_data resp env sym = Some data /\
     py_in "Time Series (Daily)" data = Some true /\
     py_in "Error Message" data = Some false /\
     py_in "Note" data = Some false /\
     py_in "Information" data = Some false).
Proof.
  destruct resp as [| | data]; [by right; left | by right; left |].
  unfold fetch_stock_data, classify.
  destruct (py_in "Error Message" data) as [[|] |] eqn:Eerr; simpl;
    [| | by right; left].
  { destruct data as [| | | | s | l | m]; try discriminate; simpl;
      [by right; left | by right; left |].
    injection Eerr as Eerr. apply bool_decide_eq_true in Eerr.
    pose proof Eerr as [v ->]%elem_of_dom. simpl.
    left. split; [done |]. exists m. split; [done | by left]. }
  destruct (py_in "Note" data) as [[|] |] eqn:Enote; simpl;
    [| | by right; left].
  { destruct data as [| | | | s | l | m]; try discriminate; simpl;
      [by right; left | by right; left |].
    injection Enote as Enote. apply bool_decide_eq_true in Enote.
    pose proof Enote as [v ->]%elem_of_dom. simpl.
    left. split; [done |]. exists m. split; [done | by right]. }
  destruct (py_in "Information" data) as [[|] |] eqn:Einfo; simpl;
    [| | by right; left].
  { destruct (py_getitem data "Information"); simpl; by right; left. }
  destruct (py_in "Time Series (Daily)" data) as [[|] |] eqn:Ets; simpl;
    [| by right; left | by right; left].
  right; right. exists data. done.
Qed.

(** X5. [fetch_stock_data] returns [None] exactly when the call was
    answered with a JSON object that has an ['Error Message'] or a
    ['Note'] key. A failed call, a body that is no object and every
    other object give a response. *)
Theorem fetch_stock_data_none_iff (resp : http_outcome) (env : demo_env)
    (sym : string) :
  fetch_stock_data resp env sym = None <->
  exists m, resp = JsonBody (JDict m) /\
            ("Error Message" ∈ dom m \/ "Note" ∈ dom m).
Proof.
  split.
  - intros Hnone.
    destruct (fetch_stock_data_cases resp env sym)
      as [[_ Hm] | [Hd | (data & _ & Hd & _)]]; [done | congruence ..].
  - intros (m & -> & Hm). unfold fetch_stock_data, classify.
    cbn [py_in py_getitem]. simpl. case_bool_decide as Herr.
    + apply elem_of_dom in Herr as [v ->]. reflexivity.
    + destruct Hm as [Hm | Hm]; [done |].
      rewrite bool_decide_eq_true_2 by assumption.
      apply elem_of_dom in Hm as [v ->]. reflexivity.
Qed.

(** X6. A response that [fetch_stock_data] returns counts as true for
    the Runner, and it is either the generated demo data or the body of
    the answer, which then has the time-series key and none of the keys
    ['Error Message'], ['Note'], ['Information']. So an answer with an
    ['Information'] key is replaced by demo data even if it carries a
    time series. *)
Theorem fetch_stock_data_response (resp : http_outcome) (env : demo_env)
    (sym : string) (data : json) :
  fetch_stock_data resp env sym = Some data ->
  py_truthy data = true /\
  (data = get_demo_data env sym \/
   (resp = JsonBody data /\
    py_in "Time Series (Daily)" data = Some true /\
    py_in "Error Message" data = Some false /\
    py_in "Note" data = Some false /\
    py_in "Information" data = Some false)).
Proof.
  intros Hsome.
  destruct (fetch_stock_data_cases resp env sym)
    as [[Hn _] | [Hd | (data' & Hr & Hd & Hts & Hrest)]].
  - congruence.
  - assert (data = get_demo_data env sym) as -> by congruence.
    split; [apply get_demo_data_truthy | by left].
  - assert (data' = data) as -> by congruence.
    split; [| right; done].
    by apply (py_in_true_truthy "Time Series (Daily)").
Qed.

End FetchMore.


(** ** More on the Runner: what a run does to the table *)

Section RunnerMore.
Context `{Rounding} `{Schema}.

Lemma parse_stock_data_symbol (data : json) (sym : string) :
  Forall (fun r => symbol r = sym) (parse_stock_data data sym).
Proof.
  destruct (decide (parse_stock_data data sym = [])) as [-> | Hne];
    [constructor |].
  destruct (parse_stock_data_inv data sym Hne) as (ts & _ & HF).
  apply Forall_forall. intros r Hr. apply list_elem_of_lookup in Hr as [i Hi].
  destruct (Forall2_lookup_r _ _ _ _ _ HF Hi) as (k & _ & Hk).
  by apply parse_entry_inv in Hk as (Hs & _).
Qed.

Lemma no_data_iff (resp : http_outcome) (env : demo_env) (sym : string) :
  no_data (fetch_stock_data resp env sym) = true <->
  fetch_stock_data resp env sym = None.
Proof.
  destruct (fetch_stock_data resp env sym) as [data |] eqn:E; simpl.
  - destruct (fetch_stock_data_cases resp env sym)
      as [[Hn _] | [Hd | (data' & Hr & Hd & Hts & _)]]; [congruence | |].
    + assert (data = get_demo_data env sym) as -> by congruence.
      rewrite get_demo_data_truthy. done.
    + assert (data' = data) as -> by congruence.
      rewrite (py_in_true_truthy "Time Series (Daily)" data); done.
  - done.
Qed.

(** X7. A symbol ends as a failed fetch exactly when the API answered
    its call with an object that has an ['Error Message'] or a ['Note']
    key; a timeout, a network or HTTP error and any other answer lead on
    to the Parser. *)
Theorem process_symbol_fetch_failed_iff (w : world) (i : nat) (sym : string)
    (s : state) :
  (process_symbol w i sym s).1 = fetch_failed <->
  exists m, http w i = JsonBody (JDict m) /\
            ("Error Message" ∈ dom m \/ "Note" ∈ dom m).
Proof.
  assert ((process_symbol w i sym s).1 = fetch_failed <->
          fetch_stock_data (http w i) (demo w i) sym = None) as ->.
  { rewrite <- no_data_iff. unfold process_symbol.
    destruct (no_data _); [done |].
    destruct (parse_stock_data _ sym); [done |].
    destruct (save_to_database _ _ _ _) as [[[|] | e] s3]; done. }
  split.
  - intros Hn. destruct (fetch_stock_data_cases (http w i) (demo w i) sym)
      as [[_ Hm] | [Hd | (data & _ & Hd & _)]]; [done | congruence ..].
  - intros (m & Hw & Hm). rewrite Hw. unfold fetch_stock_data, classify.
    cbn [py_in py_getitem]. simpl. case_bool_decide as Herr.
    + apply elem_of_dom in Herr as [v ->]. reflexivity.
    + destruct Hm as [Hm | Hm]; [done |].
      rewrite bool_decide_eq_true_2 by assumption.
      apply elem_of_dom in Hm as [v ->]. reflexivity.
Qed.

(** What one symbol does to the table: nothing, or one whole batch of
    records of that symbol. *)
Lemma process_symbol_table (w : world) (i : nat) (sym : string) (s : state) :
  let out := process_symbol w i sym s in
  (table out.2 = table s \/
   exists rs, rs <> [] /\ Forall (fun r => symbol r = sym) rs /\
              table out.2 = apply_batch (db_time w i) rs (table s)) /\
  (out.1 = stored_ok ->
   exists rs, rs <> [] /\ Forall (fun r => symbol r = sym) rs /\
              table out.2 = apply_batch (db_time w i) rs (table s)) /\
  (out.1 = fetch_failed \/ out.1 = parse_failed ->
   table out.2 = table s /\ connections out.2 = connections s).
Proof.
  cbv zeta. unfold process_symbol.
  destruct (no_data _).
  { simpl. split; [by left |]. split; [discriminate | done]. }
  set (data := default JNull _).
  pose proof (parse_stock_data_symbol data sym) as Hsym.
  destruct (parse_stock_data data sym) as [| r rs] eqn:Eparse.
  { simpl. split; [by left |]. split; [discriminate | done]. }
  destruct (save_to_database _ _ _ _) as [res s3] eqn:Esave.
  apply save_to_database_table in Esave as (Hor & Htrue & Hfalse).
  cbn [table emit] in Hor, Htrue, Hfalse.
  assert (r :: rs <> []) as Hne by discriminate.
  destruct res as [[|] | e]; simpl.
  - split; [right | split; [intros _ | intros [|]; discriminate]];
      exists (r :: rs); rewrite Htrue; done.
  - split; [left; by apply Hfalse |].
    split; [discriminate | intros [|]; discriminate].
  - split; [| split; [discriminate | intros [|]; discriminate]].
    destruct Hor as [-> | ->]; [by left | right].
    by exists (r :: rs).
Qed.

Lemma apply_batch_other_symbol (now : Z) (rs : list price_record)
    (t : gmap (string * date) row) (sym : string) (k : string * date) :
  Forall (fun r => symbol r = sym) rs -> k.1 <> sym ->
  apply_batch now rs t !! k = t !! k.
Proof.
  intros Hsym Hk. apply apply_batch_untouched. unfold last_for_key.
  replace (filter _ rs) with (@nil price_record); [done |].
  symmetry. induction Hsym as [| r rs Hr _ IH]; [done |].
  rewrite filter_cons_False; [exact IH |].
  intros <-. apply Hk. by rewrite <- Hr.
Qed.

Lemma process_symbol_frame (w : world) (i : nat) (sym : string) (s : state) :
  dom (table s) ⊆ dom (table (process_symbol w i sym s).2) /\
  forall k, k.1 <> sym ->
    table (process_symbol w i sym s).2 !! k = table s !! k.
Proof.
  destruct (process_symbol_table w i sym s) as ([-> | (rs & _ & Hs & ->)] & _).
  - done.
  - split; [rewrite apply_batch_dom; apply union_subseteq_l |].
    intros k Hk. by eapply apply_batch_other_symbol.
Qed.

Lemma run_loop_frame (w : world) (symbols : list string) :
  forall i b s,
    dom (table s) ⊆ dom (table (run_loop w i symbols b s).2) /\
    forall k, k.1 ∉ symbols ->
      table (run_loop w i symbols b s).2 !! k = table s !! k.
Proof.
  induction symbols as [| sym rest IH]; intros i b s; [done |].
  cbn [run_loop].
  destruct (process_symbol_frame w i sym s) as [Hd Hk].
  destruct (process_symbol w i sym s) as [o s'].
  destruct (IH (S i) (flag_after o b) s') as [Hd' Hk']. simpl in Hd, Hk.
  split; [by etrans |].
  intros k Hnotin. apply not_elem_of_cons in Hnotin as [Hne Hrest].
  rewrite Hk' by done. by apply Hk.
Qed.

(** X8. A run never removes a row, and it leaves every row of a symbol
    that is not in its list exactly as it was, whatever the API and the
    database do. *)
Theorem run_pipeline_frame (w : world) (symbols : list string) (s : state) :
  let s' := (run_pipeline w (Some symbols) s).2 in
  dom (table s) ⊆ dom (table s') /\
  forall k, k.1 ∉ symbols -> table s' !! k = table s !! k.
Proof. cbv zeta. unfold run_pipeline. simpl. apply run_loop_frame. Qed.

Lemma apply_batch_has_symbol (now : Z) (rs : list price_record)
    (t : gmap (string * date) row) (sym : string) :
  rs <> [] -> Forall (fun r => symbol r = sym) rs ->
  exists d, (sym, d) ∈ dom (apply_batch now rs t).
Proof.
  intros Hne Hsym. destruct rs as [| r rs]; [done |].
  apply Forall_cons in Hsym as [Hr _]. exists (on_date r).
  rewrite apply_batch_dom. apply elem_of_union_r, elem_of_list_to_set.
  rewrite fmap_cons. apply elem_of_cons. left. unfold key_of. by rewrite Hr.
Qed.

Lemma run_loop_true_rows (w : world) (symbols : list string) :
  forall i b s,
    (run_loop w i symbols b s).1 = true ->
    forall sym, sym ∈ symbols ->
      exists d, (sym, d) ∈ dom (table (run_loop w i symbols b s).2).
Proof.
  induction symbols as [| x rest IH]; intros i b s Htrue sym Hin.
  { by apply elem_of_nil in Hin. }
  cbn [run_loop] in *.
  destruct (process_symbol_table w i x s) as (_ & Hok & _).
  destruct (process_symbol w i x s) as [o s'] eqn:E. simpl in Hok.
  apply elem_of_cons in Hin as [-> | Hin]; [| by apply IH].
  rewrite run_loop_flag in Htrue. apply andb_true_iff in Htrue as [Hflag _].
  assert (o = stored_ok) as -> by (destruct o, b; done).
  destruct (Hok eq_refl) as (rs & Hne & Hsym & Ht).
  destruct (apply_batch_has_symbol (db_time w i) rs (table s) x Hne Hsym)
    as [d Hd].
  exists d. rewrite <- Ht in Hd.
  by apply (proj1 (run_loop_frame w rest (S i) (flag_after stored_ok b) s')).
Qed.

(** X9. When [run_pipeline] returns [True], the table holds at least one
    row for every symbol of the list. *)
Theorem run_pipeline_true_rows (w : world) (symbols : list string)
    (s : state) (sym : string) :
  (run_pipeline w (Some symbols) s).1 = true -> sym ∈ symbols ->
  exists d, (sym, d) ∈ dom (table (run_pipeline w (Some symbols) s).2).
Proof.
  unfold run_pipeline. simpl. intros Htrue Hin.
  by apply (run_loop_true_rows w symbols 0 true s Htrue sym Hin).
Qed.

(** X10. An answer that has the time-series key and none of the three
    indicator keys, but whose time series is empty or no dictionary at
    all, passes the fetch and fails at the Parser: the symbol ends in
    [parse_failed] after its fetch and its parse, and the database is
    not touched. *)
Theorem process_symbol_empty_series (w : world) (i : nat) (sym : string)
    (s : state) (m : gmap string json) (v : json) :
  http w i = JsonBody (JDict m) ->
  m !! "Time Series (Daily)" = Some v ->
  "Error Message" ∉ dom m -> "Note" ∉ dom m -> "Information" ∉ dom m ->
  (forall ts, v = JDict ts -> ts = ∅) ->
  process_symbol w i sym s =
  (parse_failed, emit (EParse sym) (emit (EFetch sym) s)).
Proof.
  intros Hw Hv Herr Hnote Hinfo Hempty.
  assert ("Time Series (Daily)" ∈ dom m) as Hts by (apply elem_of_dom; eauto).
  assert (fetch_stock_data (http w i) (demo w i) sym = Some (JDict m)) as Hf.
  { rewrite Hw. unfold fetch_stock_data, classify. cbn [py_in].
    rewrite (bool_decide_eq_false_2 ("Error Message" ∈ dom m)) by assumption.
    rewrite (bool_decide_eq_false_2 ("Note" ∈ dom m)) by assumption.
    rewrite (bool_decide_eq_false_2 ("Information" ∈ dom m)) by assumption.
    rewrite (bool_decide_eq_true_2 ("Time Series (Daily)" ∈ dom m))
      by assumption.
    reflexivity. }
  assert (parse_stock_data (JDict m) sym = []) as Hp.
  { unfold parse_stock_data, parse_body. cbn [py_getitem]. rewrite Hv. simpl.
    destruct v as [| | | | | | ts]; try reflexivity.
    rewrite (Hempty ts eq_refl). reflexivity. }
  unfold process_symbol. rewrite Hf. cbn [no_data default].
  rewrite (py_in_true_truthy "Time Series (Daily)" (JDict m)); [| done |].
  - simpl. by rewrite Hp.
  - simpl. by rewrite bool_decide_eq_true_2.
Qed.

Lemma process_symbol_resources (w : world) (i : nat) (sym : string)
    (s : state) :
  cursor_fails (faults w i) = false ->
  cursor_close_fails (faults w i) = false ->
  connection_close_fails (faults w i) = false ->
  connections (process_symbol w i sym s).2 = connections s /\
  cursors (process_symbol w i sym s).2 = cursors s.
Proof.
  intros Hcur Hcc Hconn. unfold process_symbol.
  destruct (no_data _); [done |].
  destruct (parse_stock_data _ sym) as [| r rs]; [done |].
  destruct (save_to_database _ _ _ _) as [res s3] eqn:Esave.
  apply (save_to_database_releases _ _ _ _ Hcur Hcc Hconn) in Esave.
  destruct res as [[|] | e]; exact Esave.
Qed.

(** X11. A run in which every database call can have its cursor and can
    close it and the connection leaves as many connections and cursors
    open as it found, however many symbols fail at whatever stage. *)
Theorem run_pipeline_no_leak (w : world) (symbols : list string) (s : state) :
  (forall i, cursor_fails (faults w i) = false /\
             cursor_close_fails (faults w i) = false /\
             connection_close_fails (faults w i) = false) ->
  connections (run_pipeline w (Some symbols) s).2 = connections s /\
  cursors (run_pipeline w (Some symbols) s).2 = cursors s.
Proof.
  intros Hf. unfold run_pipeline. simpl.
  generalize 0%nat true. revert s.
  induction symbols as [| sym rest IH]; intros s i b; [done |].
  cbn [run_loop]. destruct (Hf i) as (Hcur & Hcc & Hconn).
  destruct (process_symbol_resources w i sym s Hcur Hcc Hconn) as [Hc Hk].
  destruct (process_symbol w i sym s) as [o s']. simpl in Hc, Hk.
  destruct (IH s' (S i) (flag_after o b)) as [Hc' Hk']. split; congruence.
Qed.

End RunnerMore.


(** ** The generator and the Parser together *)

Lemma hundredths_nonneg (x : Q) : 0 <= hundredths x.
Proof.
  unfold hundredths. pose proof (round_half_even_bounds (Qabs x * 100)).
  assert (0 <= Qfloor (Qabs x * 100)).
  { change 0 with (Qfloor 0). apply Qfloor_resp_le.
    pose proof (Qabs_nonneg x). nra. }
  lia.
Qed.

(** The decimal printed for any float is read back as its number of
    hundredths, with its sign. *)
Lemma read_2f_format_signed (x : Q) :
  read_2f (format_2f x) =
  Some (if Qlt_le_dec x 0 then - hundredths x else hundredths x).
Proof.
  destruct (Qlt_le_dec x 0) as [Hneg | Hpos] eqn:Ed.
  - unfold format_2f. rewrite Ed.
    pose proof (hundredths_nonneg x) as Hc.
    pose proof (Z.div_mod (hundredths x) 100 ltac:(lia)).
    pose proof (Z.mod_pos_bound (hundredths x) 100 ltac:(lia)).
    assert (0 <= hundredths x / 100) as Hq by (apply Z.div_pos; lia).
    change (read_2f _) with
      (Z.opp <$> read_unsigned_2f
         (py_str (hundredths x / 100) ++
          String "." (zero_padded 2 (hundredths x mod 100) ""))).
    rewrite read_unsigned_2f_format by lia. simpl. f_equal. lia.
  - by apply read_2f_format.
Qed.

Lemma seq_strictly_increasing_below :
  StronglySorted (fun i j => (i < j < 7)%nat) (seq 0 7).
Proof. simpl. repeat constructor; lia. Qed.

Section GeneratorParser.
Context `{Rounding} `{Conversions}.

(** The time series of the generator, when the date does not change
    while it runs: one entry under the string of each of the last seven
    days. *)
Lemma demo_time_series_lookup (env : demo_env) (base : Q) (today : date) :
  valid_date today -> 1970 <= year today ->
  (forall i, (i < 7)%nat -> now env i = today) ->
  let ts := demo_time_series env base in
  size ts = 7%nat /\
  forall k v, ts !! k = Some v <->
    exists i, (i < 7)%nat /\ k = strftime_ymd (minus_days today i) /\
              v = demo_entry base (draws env i).
Proof.
  intros Hv Hy Hnow. cbv zeta.
  destruct (foldl_insert_distinct (demo_date env)
              (fun i => demo_entry base (draws env i))
              (seq 0 7) (NoDup_seq 0 7)) as [Hsize Hlook].
  { intros i j Hi%elem_of_seq Hj%elem_of_seq E. unfold demo_date in E.
    apply (strftime_inj (minus_days (now env i) i)
                        (minus_days (now env j) j)) in E.
    - rewrite !Hnow in E by lia.
      destruct (Nat.lt_trichotomy i j) as [Hlt | [-> | Hgt]]; [| done |].
      + pose proof (minus_days_lt today i j Hv ltac:(lia) Hlt) as Hd.
        rewrite E in Hd. by apply date_lt_irrefl in Hd.
      + pose proof (minus_days_lt today j i Hv ltac:(lia) Hgt) as Hd.
        rewrite E in Hd. by apply date_lt_irrefl in Hd.
    - rewrite Hnow by lia. apply minus_days_valid; [done | lia].
    - rewrite Hnow by lia. apply minus_days_valid; [done | lia]. }
  fold (demo_time_series env base) in Hsize, Hlook.
  split; [exact Hsize |]. intros k v. rewrite Hlook. split.
  - intros (i & Hi%elem_of_seq & -> & ->). exists i.
    split; [lia |]. unfold demo_date. by rewrite Hnow by lia.
  - intros (i & Hi & -> & ->). exists i. split; [apply elem_of_seq; lia |].
    unfold demo_date. by rewrite Hnow by lia.
Qed.

(** Conversions that read every two-decimal string and every integer
    string read the entries of the generator. *)
Lemma demo_entry_numeric (base : Q) (dr : day_draws) :
  (forall x : Q, is_Some (py_float (JStr (format_2f x)))) ->
  (forall n : Z, is_Some (py_int (JStr (py_str n)))) ->
  numeric_entry (demo_entry base dr).
Proof.
  intros Hfloat Hint. unfold numeric_entry, demo_entry.
  cbn [py_getitem]. repeat split; simplify_map_eq; simpl; auto.
Qed.

Lemma last_seven_days_sorted (today : date) :
  valid_date today -> 1970 <= year today ->
  StronglySorted str_ge (strftime_ymd <$> last_seven_days today).
Proof.
  intros Hv Hy. unfold last_seven_days. rewrite <- list_fmap_compose.
  apply (StronglySorted_fmap _ (fun i j => (i < j < 7)%nat));
    [| apply seq_strictly_increasing_below].
  intros i j Hij. simpl. unfold str_ge.
  destruct (minus_days_valid today i Hv ltac:(lia)) as [Vi _].
  destruct (minus_days_valid today j Hv ltac:(lia)) as [Vj _].
  apply strftime_le; [done | done |]. right.
  apply minus_days_lt; [done | lia | lia].
Qed.

(** The keys the Parser visits in the generated series. *)
Lemma demo_sorted_keys (env : demo_env) (base : Q) (today : date) :
  valid_date today -> 1970 <= year today ->
  (forall i, (i < 7)%nat -> now env i = today) ->
  take 7 (sorted_desc (elements (dom (demo_time_series env base)))) =
  strftime_ymd <$> last_seven_days today.
Proof.
  intros Hv Hy Hnow.
  destruct (demo_time_series_lookup env base today Hv Hy Hnow)
    as [Hsize Hlook].
  set (ts := demo_time_series env base) in *.
  assert (sorted_desc (elements (dom ts)) =
          strftime_ymd <$> last_seven_days today) as ->.
  { apply (StronglySorted_unique str_ge).
    - apply (StronglySorted_merge_sort str_ge).
    - by apply last_seven_days_sorted.
    - unfold sorted_desc. rewrite (merge_sort_Permutation str_ge).
      apply NoDup_Permutation.
      + apply NoDup_elements.
      + unfold last_seven_days. rewrite <- list_fmap_compose.
        apply NoDup_fmap_2_strong; [| apply NoDup_seq].
        intros i j Hi%elem_of_seq Hj%elem_of_seq E. simpl in E.
        eapply demo_dates_distinct; eauto; lia.
      + intros k. rewrite elem_of_elements, elem_of_dom. unfold is_Some.
        unfold last_seven_days. rewrite <- list_fmap_compose.
        rewrite list_elem_of_fmap. split.
        * intros (v & (i & Hi & -> & _)%Hlook). exists i.
          split; [done | apply elem_of_seq; lia].
        * intros (i & -> & Hi%elem_of_seq). eexists. apply Hlook.
          exists i. split; [lia | done]. }
  apply take_ge. rewrite length_fmap. unfold last_seven_days.
  rewrite length_fmap, length_seq. lia.
Qed.

Lemma Forall2_impl_l {A B} (P Q : A -> B -> Prop) (R : A -> Prop)
    (l : list A) (k : list B) :
  Forall2 P l k -> Forall R l -> (forall x y, R x -> P x y -> Q x y) ->
  Forall2 Q l k.
Proof.
  intros HF. induction HF as [| x y l k Hxy _ IH]; intros HR Himp.
  - constructor.
  - apply Forall_cons in HR as [Hx HR]. constructor; [by apply Himp | by apply IH].
Qed.

Lemma parse_demo_data_rounds (env : demo_env) (sym : string) (today : date) :
  valid_date today -> 1970 <= year today ->
  (forall i, (i < 7)%nat -> now env i = today) ->
  reads_generated env sym ->
  Forall2 (parsed_round env sym today) (seq 0 7)
          (parse_stock_data (get_demo_data env sym) sym).
Proof.
  intros Hv Hy Hnow Hreads.
  set (base := base_price sym). set (ts := demo_time_series env base).
  destruct (demo_time_series_lookup env base today Hv Hy Hnow)
    as [Hsize Hlook]. fold ts in Hsize, Hlook.
  assert (py_getitem (get_demo_data env sym) "Time Series (Daily)" =
          Some (JDict ts)) as Hts.
  { unfold get_demo_data, py_getitem. by simplify_map_eq. }
  assert (well_formed_series ts) as Hwf.
  { intros k v (i & Hi & -> & ->)%Hlook. split.
    - exists (minus_days today i). split; [| done].
      apply minus_days_valid; [done | lia].
    - by apply Hreads. }
  destruct (parse_body_well_formed _ sym ts Hts Hwf) as (out & Eout & HF).
  unfold parse_stock_data. rewrite Eout.
  unfold ts in HF. rewrite (demo_sorted_keys env base today Hv Hy Hnow) in HF.
  unfold last_seven_days in HF. rewrite <- list_fmap_compose in HF.
  apply Forall2_fmap_l in HF.
  refine (Forall2_impl_l _ _ (fun i => (i < 7)%nat) _ _ HF _ _).
  { apply Forall_forall. intros i Hi%elem_of_seq. simpl. lia. }
  intros i r Hi (Hr & Vr & Ek). simpl in Ek.
  destruct (minus_days_valid today i Hv ltac:(lia)) as [Vi _].
  apply strftime_inj in Ek; [| done | done].
  apply parse_entry_inv in Hr as (Hs & _ & daily & Hd & Ho & Hh & Hl & Hc & Hvol).
  cbn [py_getitem] in Hd. fold ts in Hd.
  apply Hlook in Hd as (j & Hj & Ej & ->).
  assert (i = j) as <-.
  { exact (demo_dates_distinct today i j Hv Hy Hi Hj Ej). }
  unfold parsed_round. cbv zeta. fold base.
  unfold demo_entry in Ho, Hh, Hl, Hc, Hvol. cbn [py_getitem] in *.
  rewrite lookup_insert_eq in Ho.
  rewrite lookup_insert_ne, lookup_insert_eq in Hh by done.
  do 2 rewrite lookup_insert_ne in Hl by done. rewrite lookup_insert_eq in Hl.
  do 3 rewrite lookup_insert_ne in Hc by done. rewrite lookup_insert_eq in Hc.
  do 4 rewrite lookup_insert_ne in Hvol by done.
  rewrite lookup_singleton_eq in Hvol.
  simpl in Ho, Hh, Hl, Hc, Hvol. done.
Qed.


End GeneratorParser.


(** ** From the fallback to the table *)

Lemma NoDup_key_of `{Conversions} (l : list price_record) :
  NoDup (on_date <$> l) -> NoDup (key_of <$> l).
Proof.
  induction l as [| x l IH]; [constructor |].
  rewrite !fmap_cons. intros [Hx Hnd]%NoDup_cons.
  constructor; [| by apply IH]. intros Hin. apply Hx.
  apply list_elem_of_fmap in Hin as (y & Ey & Hy).
  apply list_elem_of_fmap. exists y. split; [| exact Hy].
  unfold key_of in Ey. congruence.
Qed.

Lemma last_seven_days_NoDup (today : date) :
  valid_date today -> 1970 <= year today -> NoDup (last_seven_days today).
Proof.
  intros Hv Hy. apply (NoDup_fmap_1 strftime_ymd).
  unfold last_seven_days. rewrite <- list_fmap_compose.
  apply NoDup_fmap_2_strong; [| apply NoDup_seq].
  intros i j Hi%elem_of_seq Hj%elem_of_seq E. simpl in E.
  eapply demo_dates_distinct; eauto; lia.
Qed.

Section Fallback.
Context `{Rounding} `{Schema}.

Lemma process_symbol_run (w : world) (i : nat) (sym : string) (s : state)
    (data : json) (s3 : state) :
  fetch_stock_data (http w i) (demo w i) sym = Some data ->
  py_truthy data = true ->
  parse_stock_data data sym <> [] ->
  save_to_database (faults w i) (db_time w i) (parse_stock_data data sym)
    (emit (EStore sym) (emit (EParse sym) (emit (EFetch sym) s)))
  = (Ok true, s3) ->
  process_symbol w i sym s = (stored_ok, emit (ESleep 12) s3).
Proof.
  intros Hf Ht Hne Hs. unfold process_symbol. cbv zeta. rewrite Hf.
  cbn [no_data default id]. rewrite Ht. cbn [negb].
  destruct (parse_stock_data data sym) as [| r rs]; [done |].
  by rewrite Hs.
Qed.

(** X14. Whenever the fetch falls back to the demo data (the call
    failed, or the answer has neither an ['Error Message'] nor a ['Note']
    key and has an ['Information'] key or no time series), the local date
    stays [today] while the generator runs, the conversions read the
    seven entries it prints, and the database works and accepts the seven
    records parsed from them: the symbol ends in [stored_ok], the
    connection is closed again, and for each of the last seven days the
    table holds the row of that symbol and day with the values of the
    generator's round as parsed. *)
Theorem process_symbol_fallback (w : world) (i : nat) (sym : string)
    (s : state) (today : date) :
  falls_back (http w i) -> faults w i = no_faults ->
  valid_date today -> 1970 <= year today ->
  (forall k, (k < 7)%nat -> now (demo w i) k = today) ->
  reads_generated (demo w i) sym ->
  Forall (fun r => db_accepts r = true)
         (parse_stock_data (get_demo_data (demo w i) sym) sym) ->
  let out := process_symbol w i sym s in
  out.1 = stored_ok /\
  connections out.2 = connections s /\
  forall j, (j < 7)%nat ->
    exists r created,
      parsed_round (demo w i) sym today j r /\
      table out.2 !! (sym, minus_days today j) = Some (row_of r created).
Proof.
  intros Hfb Hfaults Hv Hy Hnow Hreads Hall. cbv zeta.
  pose proof (parse_demo_data_rounds (demo w i) sym today Hv Hy Hnow Hreads)
    as HF.
  set (recs := parse_stock_data (get_demo_data (demo w i) sym) sym) in *.
  assert (on_date <$> recs = last_seven_days today) as Hdates.
  { unfold last_seven_days. clear -HF. revert HF. generalize (seq 0 7).
    intros l HF. induction HF as [| j r l out (_ & Hd & _) _ IH]; [done |].
    rewrite !fmap_cons. by rewrite Hd, IH. }
  assert (NoDup (key_of <$> recs)) as Hnd.
  { apply NoDup_key_of. rewrite Hdates. by apply last_seven_days_NoDup. }
  assert (recs <> []) as Hne.
  { intros E. rewrite E in HF. apply Forall2_length in HF. discriminate. }
  rewrite (process_symbol_run w i sym s _ _ (falls_back_fetch _ _ _ Hfb)
             (get_demo_data_truthy _ _) Hne
             (eq_trans (f_equal (fun f => save_to_database f _ _ _) Hfaults)
                       (save_to_database_success _ recs _ Hne Hall))).
  cbn [fst snd emit table connections]. split; [done |]. split; [done |].
  intros j Hj.
  destruct (Forall2_lookup_l _ _ _ j j HF) as (r & Hr & Hround).
  { apply lookup_seq. lia. }
  destruct (apply_batch_member (db_time w i) recs (table s) r) as [c Hc].
  { by eapply list_elem_of_lookup_2. }
  { exact Hnd. }
  exists r, c. split; [exact Hround |].
  destruct Hround as (Hs & Hd & _). unfold key_of in Hc.
  by rewrite Hs, Hd in Hc.
Qed.

End Fallback.

(** ** How close the printed price is *)

Lemma round_half_even_error (q : Q) :
  (Qabs (inject_Z (round_half_even q) - q) <= 1 # 2)%Q.
Proof.
  pose proof (Qfloor_le q) as Hlo. pose proof (Qlt_floor q) as Hhi.
  rewrite inject_Z_plus in Hhi. change (inject_Z 1) with 1%Q in Hhi.
  unfold round_half_even. cbv zeta. apply Qabs_Qle_condition.
  destruct (Qcompare_spec (q - inject_Z (Qfloor q)) (1 # 2)) as [E | L | G].
  - destruct (Z.even (Qfloor q)); rewrite ?inject_Z_plus;
      change (inject_Z 1) with 1%Q; split; lra.
  - split; lra.
  - rewrite inject_Z_plus. change (inject_Z 1) with 1%Q. split; lra.
Qed.

(** The price printed with two decimals is within half a hundredth of the
    price. *)
Lemma hundredths_error (x : Q) :
  (0 <= x)%Q -> (Qabs ((hundredths x # 100) - x) <= 1 # 200)%Q.
Proof.
  intros Hx. unfold hundredths.
  pose proof (Qabs_pos x Hx) as Ha.
  pose proof (round_half_even_error (Qabs x * 100)) as He.
  apply Qabs_Qle_condition in He. apply Qabs_Qle_condition.
  set (c := round_half_even (Qabs x * 100)) in *.
  assert (c # 100 == inject_Z c * (1 # 100))%Q as ->
    by (unfold Qeq; simpl; lia).
  set (a := Qabs x) in *. set (ic := inject_Z c) in *. split; lra.
Qed.

Section Precision.
Context `{RoundingLaws}.

(** X15. Of every generated day, each of the four prices is printed as a
    decimal that reads back to within 0.005 of the price computed, and
    the volume reads back as drawn. *)
Theorem demo_entry_round_trip (sym : string) (dr : day_draws) :
  draws_in_range dr ->
  let p := demo_prices (base_price sym) dr in
  let e := demo_entry (base_price sym) dr in
  exists o h l c : Z,
    printed_hundredths e "1. open" = Some o /\
    printed_hundredths e "2. high" = Some h /\
    printed_hundredths e "3. low" = Some l /\
    printed_hundredths e "4. close" = Some c /\
    printed_integer e "5. volume" = Some (n_volume dr) /\
    (Qabs ((o # 100) - p_open p) <= 1 # 200)%Q /\
    (Qabs ((h # 100) - p_high p) <= 1 # 200)%Q /\
    (Qabs ((l # 100) - p_low p) <= 1 # 200)%Q /\
    (Qabs ((c # 100) - p_close p) <= 1 # 200)%Q.
Proof.
  intros Hdr. cbv zeta.
  destruct (demo_prices_ordered (base_price sym) dr (base_price_ge_1 sym) Hdr)
    as (H8 & Hlo & Hlc & Hoh & Hch).
  set (p := demo_prices (base_price sym) dr) in *.
  exists (hundredths (p_open p)), (hundredths (p_high p)),
         (hundredths (p_low p)), (hundredths (p_close p)).
  unfold demo_entry. fold p.
  repeat split;
    try (apply printed_hundredths_format; [lra | by simplify_map_eq]);
    try (apply printed_integer_str; by simplify_map_eq);
    try (apply Qabs_Qle_condition; apply Qabs_Qle_condition;
         apply hundredths_error; lra).
Qed.

End Precision.


(** ** [main] *)

Lemma init_Some (environ : gmap string string) :
  is_Some (init environ) <->
  exists key, environ !! "ALPHA_VANTAGE_API_KEY" = Some key /\ key <> "".
Proof.
  unfold init. destruct (environ !! "ALPHA_VANTAGE_API_KEY") as [key |].
  - destruct (String.eqb_spec key "") as [-> | Hne].
    + split; [intros [? [=]] | intros (k & [= <-] & Hk); done].
    + split; [intros _; by exists key | intros _; by eexists].
  - split; [intros [? [=]] | intros (k & [=] & _)].
Qed.

Lemma symbols_of_argv_nonempty (argv : list string) :
  symbols_of_argv argv <> [].
Proof.
  unfold symbols_of_argv.
  destruct argv as [| prog [| a rest]]; simpl; discriminate.
Qed.

Section MainMore.
Context `{Rounding} `{Schema}.

(** X16. [main] exits with 0 or 1. It exits with 0 exactly when the
    environment has a non-empty [ALPHA_VANTAGE_API_KEY] and every symbol
    it was given (the arguments after the program name, or else AAPL,
    GOOGL and MSFT) ended in [stored_ok]. With the key missing or empty it
    exits with 1 before anything is fetched or stored. *)
Theorem main_exit_code (environ : gmap string string) (argv : list string)
    (w : world) (s : state) :
  let out := main environ argv w s in
  (out.1 = 0 \/ out.1 = 1) /\
  (out.1 = 0 <->
     (exists key,
        environ !! "ALPHA_VANTAGE_API_KEY" = Some key /\ key <> "") /\
     forallb succeeded (outcomes w 0 (symbols_of_argv argv) s) = true) /\
  ((forall key, environ !! "ALPHA_VANTAGE_API_KEY" = Some key -> key = "") ->
   out = (1, s)).
Proof.
  cbv zeta. unfold main. pose proof (init_Some environ) as Hinit.
  destruct (init environ) as [f |].
  - assert (exists key,
      environ !! "ALPHA_VANTAGE_API_KEY" = Some key /\ key <> "") as Hkey
      by (apply Hinit; by eexists).
    pose proof (run_loop_flag w (symbols_of_argv argv) 0 true s) as Hflag.
    unfold run_pipeline. cbv zeta. cbn [default id].
    destruct (run_loop w 0 (symbols_of_argv argv) true s) as [b s'].
    cbn [fst andb] in *. subst b.
    split; [destruct (forallb _ _); [by left | by right] |]. split.
    + destruct (forallb _ _); split; try done. by intros [_ ?].
    + intros Hnone. destruct Hkey as (key & Hk & Hne).
      by specialize (Hnone key Hk).
  - cbn [fst]. split; [by right |]. split; [| done].
    split; [done |]. intros [Hkey _]. apply Hinit in Hkey as [? [=]].
Qed.

(** X17. [main] never runs the pipeline on an empty list of symbols, and
    an exit code of 0 means that the table has a row for every symbol it
    was asked for. *)
Theorem main_exit_zero_rows (environ : gmap string string)
    (argv : list string) (w : world) (s : state) :
  (main environ argv w s).1 = 0 ->
  symbols_of_argv argv <> [] /\
  forall sym, sym ∈ symbols_of_argv argv ->
    exists d, (sym, d) ∈ dom (table (main environ argv w s).2).
Proof.
  intros Hzero. split; [apply symbols_of_argv_nonempty |].
  intros sym Hin. revert Hzero. unfold main.
  destruct (init environ) as [f |]; [| discriminate].
  pose proof (run_loop_true_rows w (symbols_of_argv argv) 0 true s) as Hrows.
  unfold run_pipeline. cbv zeta. cbn [default id].
  destruct (run_loop w 0 (symbols_of_argv argv) true s) as [b s'].
  cbn [fst snd] in *. destruct b; [| discriminate].
  intros _. by apply Hrows.
Qed.

End MainMore.


(** ** Storing a batch again *)

Section StoreAgain.
Context `{Schema}.

Lemma apply_batch_last (now : Z) (rs : list price_record)
    (t : gmap (string * date) row) (k : string * date) (r : price_record) :
  last_for_key k rs = Some r ->
  exists created, apply_batch now rs t !! k = Some (row_of r created).
Proof.
  revert r. induction rs as [| x rs IH] using rev_ind; [done |].
  intros r. rewrite last_for_key_snoc, apply_batch_snoc.
  case_decide as Hk.
  - intros [= ->]. subst k. rewrite upsert_lookup_same. by eexists.
  - intros Hl. rewrite upsert_lookup_other by congruence. by apply IH.
Qed.

Lemma last_for_key_None (k : string * date) (rs : list price_record) :
  last_for_key k rs = None -> k ∉ key_of <$> rs.
Proof.
  unfold last_for_key. intros Hl%last_None Hin.
  apply list_elem_of_fmap in Hin as (r & -> & Hr).
  assert (r ∈ filter (fun r' => key_of r' = key_of r) rs) as Hf
    by (by apply list_elem_of_filter).
  rewrite Hl in Hf. by apply elem_of_nil in Hf.
Qed.

(** X18. Storing the same batch a second time adds no row and changes no
    value: the table has the same keys as after the first time, every
    row has the same prices and volume, the rows of the batch have
    [created_at] at the time of the second transaction and the other
    rows are as they were. *)
Theorem save_to_database_again (f f' : db_faults) (now now' : Z)
    (rs : list price_record) (s : state) :
  let first := save_to_database f now rs s in
  let second := save_to_database f' now' rs first.2 in
  first.1 = Ok true -> second.1 = Ok true ->
  dom (table second.2) = dom (table first.2) /\
  forall k a, table first.2 !! k = Some a ->
    exists b, table second.2 !! k = Some b /\ same_values a b /\
              (k ∈ key_of <$> rs -> created_at b = Some now') /\
              (k ∉ key_of <$> rs -> b = a).
Proof.
  cbv zeta. intros H1 H2.
  destruct (save_to_database f now rs s) as [r1 s1] eqn:E1.
  cbn [fst snd] in *.
  destruct (save_to_database f' now' rs s1) as [r2 s2] eqn:E2.
  cbn [fst snd] in *.
  destruct (save_to_database_table _ _ _ _ _ _ E1) as (_ & T1 & _).
  destruct (save_to_database_table _ _ _ _ _ _ E2) as (_ & T2 & _).
  rewrite (T2 H2), (T1 H1). clear T1 T2. split.
  { rewrite !apply_batch_dom. set_solver. }
  intros k a Ha.
  destruct (last_for_key k rs) as [r |] eqn:El.
  - destruct (apply_batch_last now rs (table s) k r El) as [c Hc].
    rewrite Hc in Ha. injection Ha as <-.
    exists (row_of r (Some now')). split.
    { apply apply_batch_existing; [by rewrite Hc | exact El]. }
    split; [done |]. split; [done |].
    intros Hnot. exfalso. apply Hnot.
    apply last_for_key_in_batch, elem_of_list_to_set in El. exact El.
  - exists a. split; [by rewrite apply_batch_untouched |].
    split; [done |]. split; [| done].
    intros Hin. by apply last_for_key_None in El.
Qed.

End StoreAgain.

(** ** One entry that does not convert *)

Section ParserAll.
Context `{Conversions}.

Lemma parse_entry_None (ts : gmap string json) (sym k : string) :
  strptime_ymd k = None \/
  (exists v, ts !! k = Some v /\ ~ numeric_entry v) ->
  parse_entry (JDict ts) sym k = None.
Proof.
  unfold parse_entry. cbn [py_getitem].
  intros [Hd | (v & Hv & Hbad)].
  - destruct (ts !! k); [| done]. simpl. by rewrite Hd.
  - rewrite Hv. simpl. destruct (strptime_ymd k); [| done]. simpl.
    destruct (py_getitem v "1. open" ≫= py_float) eqn:Eo; [| done].
    destruct (py_getitem v "2. high" ≫= py_float) eqn:Eh; [| done].
    destruct (py_getitem v "3. low" ≫= py_float) eqn:El; [| done].
    destruct (py_getitem v "4. close" ≫= py_float) eqn:Ec; [| done].
    destruct (py_getitem v "5. volume" ≫= py_int) eqn:Ev; [| done].
    exfalso. apply Hbad. unfold numeric_entry.
    rewrite Eo, Eh, El, Ec, Ev. by repeat split.
Qed.

(** X19. One of the seven most recent keys that is no date, or whose
    entry lacks a field or has one that does not convert, and the Parser
    returns no record at all, whatever the other days hold. *)
Theorem parse_stock_data_one_bad_entry (data : json) (sym : string)
    (ts : gmap string json) (k : string) :
  py_getitem data "Time Series (Daily)" = Some (JDict ts) ->
  k ∈ take 7 (sorted_desc (elements (dom ts))) ->
  strptime_ymd k = None \/
  (exists v, ts !! k = Some v /\ ~ numeric_entry v) ->
  parse_stock_data data sym = [].
Proof.
  intros Hts Hk Hbad. unfold parse_stock_data, parse_body.
  rewrite Hts. simpl.
  assert (mapM (parse_entry (JDict ts) sym)
            (take 7 (sorted_desc (elements (dom ts)))) = None) as ->; [| done].
  apply mapM_None, Exists_exists. exists k.
  split; [exact Hk | by apply parse_entry_None].
Qed.

End ParserAll.


(** ** Examples: the theorems at concrete inputs *)

Section Examples.
#[local] Existing Instance decimal_conversions.
#[local] Existing Instance open_schema.
#[local] Existing Instance fl_grid.

(** C2, as stated, fails: the row under the sample key was created at
    time 100, and after an upsert of that key at time 200 its
    [created_at] is 200. *)
Lemma upsert_changes_created_at :
  created_at <$> (table stored_state !! sample_key) = Some (Some 100) /\
  created_at <$>
    (table (save_to_database no_faults 200
              [sample_record 2 20] stored_state).2 !! sample_key)
  = Some (Some 200).
Proof. split; vm_compute; reflexivity. Qed.

(** The amended statement on that input: stored again at time 300, the
    row carries the values of the batch and [created_at] 300. *)
Lemma save_to_database_conflict_update_witness :
  [sample_record 2 20] <> [] /\
  table (save_to_database no_faults 300 [sample_record 2 20]
           (save_to_database no_faults 200
              [sample_record 2 20] stored_state).2).2 !! sample_key
  = Some (row_of (sample_record 2 20) (Some 300)).
Proof.
  split; [discriminate |].
  refine (proj1 (proj2 (proj2 (proj2 (proj2
    (save_to_database_conflict_update 200 300
       [sample_record 2 20] stored_state _ _))))) sample_key _ _).
  - discriminate.
  - repeat constructor.
  - reflexivity.
Defined.

(** C1, as stated, fails: on the response with a ['Note'] field the fetch
    returns [None], not the demo data. *)
Lemma fetch_note_no_fallback :
  fetch_stock_data (JsonBody note_response) sample_env "AAPL" = None /\
  fetch_stock_data (JsonBody note_response) sample_env "AAPL" <>
  Some (get_demo_data sample_env "AAPL").
Proof. split; [by vm_compute | discriminate]. Qed.

(** The amended statement on that response. *)
Lemma fetch_stock_data_note_fails_witness :
  "Note" ∈ dom note_fields /\
  fetch_stock_data (JsonBody (JDict note_fields)) sample_env "AAPL" = None.
Proof.
  assert ("Note" ∈ dom note_fields) as Hin.
  { apply elem_of_dom. eexists. by vm_compute. }
  split; [exact Hin |].
  exact (proj1 (fetch_stock_data_note_fails note_fields sample_env "AAPL" Hin)).
Defined.

(** The sample draws are within the ranges (under the example
    rounding). *)
Lemma sample_draws_in_range (i : nat) : draws_in_range (draws sample_env i).
Proof. repeat split; by vm_compute. Qed.



(** The series of two days has the shape the Parser expects. *)
Lemma odd_series_well_formed : well_formed_series odd_series.
Proof.
  intros k v Hk. unfold odd_series in Hk.
  apply lookup_insert_Some in Hk as [[<- <-] | [_ Hk]];
    [| apply lookup_singleton_Some in Hk as [<- <-]].
  - split.
    + exists (Date 2024 1 2). split; [repeat split; by vm_compute | done].
    + repeat split; eexists; by vm_compute.
  - split.
    + exists (Date 2024 1 3). split; [repeat split; by vm_compute | done].
    + repeat split; eexists; by vm_compute.
Qed.

(** Two entries in, two records out. *)
Lemma parse_stock_data_most_recent_seven_witness :
  well_formed_series odd_series /\
  length (parse_stock_data odd_response "AAPL") = 2%nat.
Proof.
  split; [exact odd_series_well_formed |].
  assert (size odd_series < 7)%nat as Hsize by (vm_compute; lia).
  destruct (parse_stock_data_most_recent_seven odd_response "AAPL" odd_series
              eq_refl odd_series_well_formed) as (_ & Hlt & _).
  exact (eq_trans (Hlt Hsize) eq_refl).
Defined.

(** The entry with a negative open, a low above the high, a close of
    zero and a negative volume becomes a record with these values. *)
Lemma parse_stock_data_no_range_check_witness :
  well_formed_series odd_series /\
  PriceRecord "AAPL" (Date 2024 1 2) (-500 # 100)%Q (100 # 100)%Q
              (200 # 100)%Q (0 # 100)%Q (-3)
  ∈ parse_stock_data odd_response "AAPL".
Proof.
  split; [exact odd_series_well_formed |].
  refine (proj1 (parse_stock_data_no_range_check odd_response "AAPL"
            odd_series "2024-01-02" odd_entry (Date 2024 1 2)
            (-500 # 100)%Q (100 # 100)%Q (200 # 100)%Q (0 # 100)%Q (-3)
            eq_refl odd_series_well_formed _ eq_refl _ eq_refl
            eq_refl eq_refl eq_refl eq_refl eq_refl)).
  - vm_compute. repeat constructor.
  - repeat split; by vm_compute.
Defined.

(** What the definitions compute on small inputs. *)

Example strptime_padded :
  strptime_ymd "2024-02-29" = Some (Date 2024 2 29).
Proof. reflexivity. Qed.

Example strptime_unpadded :
  strptime_ymd "2024-1-5" = Some (Date 2024 1 5).
Proof. reflexivity. Qed.

(** A year in Arabic-Indic digits (U+0660 to U+0669) and a day whose
    second digit is the fullwidth 2 (U+FF12) are read as their values; a
    month is only read in ASCII digits. *)
Example strptime_other_scripts :
  strptime_ymd (arabic_indic_2024 +:+ "-01-1" +:+ fullwidth_2) =
  Some (Date 2024 1 12) /\
  strptime_ymd ("2024-1" +:+ fullwidth_2 +:+ "-01") = None /\
  strptime_ymd ("2024-01-" +:+ fullwidth_2) = None.
Proof. repeat split; reflexivity. Qed.

Example strptime_invalid :
  strptime_ymd "2023-02-29" = None /\ strptime_ymd "2024-13-01" = None /\
  strptime_ymd "24-01-01" = None /\ strptime_ymd "2024-01-011" = None.
Proof. repeat split; reflexivity. Qed.

Example minus_days_new_year :
  strftime_ymd (minus_days (Date 2024 1 3) 6) = "2023-12-28".
Proof. reflexivity. Qed.

Example format_2f_samples :
  format_2f (1 # 8) = "0.12" /\ format_2f (3 # 8) = "0.38" /\
  format_2f (12345678 # 1000) = "12345.68" /\ format_2f (- (1 # 3)) = "-0.33".
Proof. repeat split; by vm_compute. Qed.

(** The seven days of demo data, parsed: most recent first. *)
Example parse_demo_data :
  on_date <$> parse_stock_data (get_demo_data sample_env "AAPL") "AAPL" =
  [Date 2024 1 3; Date 2024 1 2; Date 2024 1 1; Date 2023 12 31;
   Date 2023 12 30; Date 2023 12 29; Date 2023 12 28].
Proof. by vm_compute. Qed.

(** One field that does not convert and the whole batch is dropped. *)
Example parse_broken_response :
  length (parse_stock_data broken_response "AAPL") = 0%nat.
Proof. by vm_compute. Qed.

(** When the date changes between two readings of the clock, two rounds
    of the generator write the same key. *)
Example demo_clock_rollover :
  (py_getitem (get_demo_data rollover_env "AAPL") "Time Series (Daily)"
     ≫= py_keys) =
  Some ["2023-12-31"; "2023-12-30"; "2023-12-29"; "2024-01-03";
        "2024-01-01"; "2024-01-02"].
Proof. by vm_compute. Qed.

(** The sample run: the first symbol is stored from demo data and
    followed by the pause, the second fails at the fetch, the third at
    the store, where the connection is left open. *)
Example run_pipeline_sample :
  let run := run_pipeline sample_world None empty_state in
  run.1 = false /\
  outcomes sample_world 0 default_symbols empty_state =
  [stored_ok; fetch_failed; store_failed] /\
  filter (fun e => is_fetch e = true \/ is_sleep e = true) (trace run.2) =
  [EFetch "AAPL"; ESleep 12; EFetch "GOOGL"; EFetch "MSFT"] /\
  connections run.2 = 1%nat /\ size (table run.2) = 7%nat.
Proof. repeat split; by vm_compute. Qed.

(** The example conversions read every entry the generator prints. *)
Lemma decimal_reads_generated (env : demo_env) (sym : string) :
  reads_generated env sym.
Proof.
  assert (forall x : Q, is_Some (py_float (JStr (format_2f x)))) as Hfloat.
  { intros x. cbn [py_float decimal_conversions].
    rewrite read_2f_format_signed. by eexists. }
  assert (forall n : Z, is_Some (py_int (JStr (py_str n)))) as Hint.
  { intros n. cbn [py_int decimal_conversions].
    unfold py_str. rewrite NilZero.isi.
    - by eexists.
    - intros E. pose proof (DecimalZ.of_to n) as Hn. rewrite E in Hn.
      simpl in Hn. subst n. discriminate.
    - intros E. pose proof (DecimalZ.of_to n) as Hn. rewrite E in Hn.
      simpl in Hn. subst n. discriminate. }
  intros i _. by apply demo_entry_numeric.
Qed.

Lemma sample_today_valid : valid_date (Date 2024 1 3).
Proof. repeat split; by vm_compute. Qed.

(** A commit that fails is answered with [False], not with an
    exception. *)
Lemma save_to_database_no_exception_witness :
  commit_fails commit_fault = true /\
  exists b : bool,
    (save_to_database commit_fault 200 [sample_record 2 20] stored_state).1
    = Ok b.
Proof.
  split; [reflexivity |].
  exact (save_to_database_no_exception commit_fault 200
           [sample_record 2 20] stored_state eq_refl eq_refl eq_refl eq_refl).
Defined.

(** After the failed commit the connection and the cursor are closed. *)
Lemma save_to_database_closes_witness :
  connections
    (save_to_database commit_fault 200 [sample_record 2 20] stored_state).2
  = 0%nat.
Proof.
  exact (proj1 (save_to_database_closes commit_fault 200
                  [sample_record 2 20] stored_state
                  eq_refl eq_refl eq_refl)).
Defined.

(** A day of the year before, added to the seven days of demo data,
    changes nothing, whatever its entry. *)
Lemma parse_stock_data_ignores_older_witness :
  parse_stock_data older_response "AAPL" =
  parse_stock_data (get_demo_data sample_env "AAPL") "AAPL".
Proof.
  refine (parse_stock_data_ignores_older (get_demo_data sample_env "AAPL")
            older_response "AAPL"
            (demo_time_series sample_env (base_price "AAPL"))
            "2023-01-01" JNull _ _ _ _).
  - by vm_compute.
  - by vm_compute.
  - vm_compute. lia.
  - apply Forall_forall.
    assert (take 7 (sorted_desc (elements
              (dom (demo_time_series sample_env (base_price "AAPL"))))) =
            ["2024-01-03"; "2024-01-02"; "2024-01-01"; "2023-12-31";
             "2023-12-30"; "2023-12-29"; "2023-12-28"]) as ->
      by (by vm_compute).
    repeat constructor; try discriminate; by vm_compute.
Defined.

(** An answer with a time series is passed on as it is. *)
Lemma fetch_stock_data_response_witness :
  fetch_stock_data (JsonBody odd_response) sample_env "AAPL" =
  Some odd_response /\
  py_truthy odd_response = true.
Proof.
  assert (fetch_stock_data (JsonBody odd_response) sample_env "AAPL" =
          Some odd_response) as Hf by (by vm_compute).
  split; [exact Hf |].
  exact (proj1 (fetch_stock_data_response (JsonBody odd_response) sample_env
                  "AAPL" odd_response Hf)).
Defined.

(** A run that returns [True] has stored a row of its symbol. *)
Lemma run_pipeline_true_rows_witness :
  (run_pipeline steady_world (Some ["AAPL"]) empty_state).1 = true /\
  exists d,
    ("AAPL", d) ∈
    dom (table (run_pipeline steady_world (Some ["AAPL"]) empty_state).2).
Proof.
  assert ((run_pipeline steady_world (Some ["AAPL"]) empty_state).1 = true)
    as Htrue by (by vm_compute).
  split; [exact Htrue |].
  refine (run_pipeline_true_rows steady_world ["AAPL"] empty_state "AAPL"
            Htrue _).
  by left.
Defined.

(** The answer with an empty time series fails at the Parser. *)
Lemma process_symbol_empty_series_witness :
  (process_symbol empty_series_world 0 "AAPL" empty_state).1 = parse_failed.
Proof.
  refine (f_equal fst
    (process_symbol_empty_series empty_series_world 0 "AAPL" empty_state
       empty_series_fields (JDict ∅) eq_refl _ _ _ _ _)).
  - by vm_compute.
  - apply not_elem_of_dom. by vm_compute.
  - apply not_elem_of_dom. by vm_compute.
  - apply not_elem_of_dom. by vm_compute.
  - by intros ts [= <-].
Defined.

(** A run on a database that works leaves no connection open. *)
Lemma run_pipeline_no_leak_witness :
  connections (run_pipeline steady_world (Some ["AAPL"; "MSFT"])
                 empty_state).2 = 0%nat.
Proof.
  refine (proj1 (run_pipeline_no_leak steady_world ["AAPL"; "MSFT"]
                   empty_state _)).
  intros i. repeat split; reflexivity.
Defined.


(** The call that times out ends with the demo data stored. *)
Lemma process_symbol_fallback_witness :
  falls_back (http steady_world 0) /\
  (process_symbol steady_world 0 "AAPL" empty_state).1 = stored_ok.
Proof.
  assert (falls_back (http steady_world 0)) as Hfb by (by left).
  split; [exact Hfb |].
  refine (proj1 (process_symbol_fallback steady_world 0 "AAPL" empty_state
                   (Date 2024 1 3) Hfb eq_refl sample_today_valid _
                   (fun k _ => eq_refl) (decimal_reads_generated _ _) _)).
  - by vm_compute.
  - apply Forall_forall. by intros r _.
Defined.

(** The open price of the sample draws reads back to within half a
    hundredth. *)
Lemma demo_entry_round_trip_witness :
  draws_in_range (draws sample_env 0) /\
  exists o : Z,
    printed_hundredths
      (demo_entry (base_price "AAPL") (draws sample_env 0)) "1. open"
    = Some o /\
    (Qabs ((o # 100) -
           p_open (demo_prices (base_price "AAPL") (draws sample_env 0)))
     <= 1 # 200)%Q.
Proof.
  split; [exact (sample_draws_in_range 0) |].
  destruct (demo_entry_round_trip (H0 := fl_grid_laws) "AAPL"
              (draws sample_env 0) (sample_draws_in_range 0))
    as (o & _ & _ & _ & Ho & _ & _ & _ & _ & Hd & _).
  exists o. split; [exact Ho | exact Hd].
Defined.

(** With a key in the environment and one symbol on the command line,
    [main] exits with 0 and the symbol has a row. *)
Lemma main_exit_zero_rows_witness :
  (main sample_environ sample_argv steady_world empty_state).1 = 0 /\
  exists d,
    ("AAPL", d) ∈
    dom (table (main sample_environ sample_argv steady_world empty_state).2).
Proof.
  assert ((main sample_environ sample_argv steady_world empty_state).1 = 0)
    as Hzero by (by vm_compute).
  split; [exact Hzero |].
  refine (proj2 (main_exit_zero_rows sample_environ sample_argv steady_world
                   empty_state Hzero) "AAPL" _).
  by vm_compute; left.
Defined.


(** The sample record stored twice: one row, with the values of the
    record. *)
Lemma save_to_database_again_witness :
  (save_to_database no_faults 200 [sample_record 2 20] empty_state).1
  = Ok true /\
  dom (table (save_to_database no_faults 300 [sample_record 2 20]
                (save_to_database no_faults 200 [sample_record 2 20]
                   empty_state).2).2) =
  dom (table (save_to_database no_faults 200 [sample_record 2 20]
                empty_state).2).
Proof.
  assert ((save_to_database no_faults 200 [sample_record 2 20]
             empty_state).1 = Ok true) as H1 by (by vm_compute).
  split; [exact H1 |].
  refine (proj1 (save_to_database_again no_faults no_faults 200 300
                   [sample_record 2 20] empty_state H1 _)).
  by vm_compute.
Defined.

(** The later of two days has an open that is no number: no record. *)
Lemma parse_stock_data_one_bad_entry_witness :
  ~ numeric_entry unread_entry /\
  length (parse_stock_data
            (JDict {[ "Time Series (Daily)" := JDict unread_series ]})
            "AAPL") = 0%nat.
Proof.
  assert (~ numeric_entry unread_entry) as Hbad.
  { intros (Ho & _). vm_compute in Ho. by destruct Ho. }
  split; [exact Hbad |].
  refine (f_equal length
    (parse_stock_data_one_bad_entry
       (JDict {[ "Time Series (Daily)" := JDict unread_series ]}) "AAPL"
       unread_series "2024-01-03" eq_refl _ _)).
  - vm_compute. by left.
  - right. exists unread_entry. split; [by vm_compute | exact Hbad].
Defined.


End Examples.
